(** * nuclei-segmentation: the UNet network and its training loop

    A shallow embedding of [src/models/UNet.py] (module [Network]) and of
    [src/main.py] (modules [Cli] and [Main]).  The numerical engine (tensors,
    convolution kernels, autograd, the optimizer) is an external collaborator:
    its kernels are section variables, and the calls the program makes to it
    are kept in explicit state. *)

From Stdlib Require Import ZArith List String Ascii Bool Lia.
From Stdlib Require Import Floats.PrimFloat.
From Stdlib Require Import Numbers.Cyclic.Int63.Uint63.
Import ListNotations.
Open Scope Z_scope.

(* ===================================================================== *)
(** * Python effects: exceptions over explicit state *)
(* ===================================================================== *)

Module Py.

(** The exceptions the modelled code can raise. *)
Inductive exn : Type :=
| ZeroDivisionError
| RuntimeError
| ValueError
| StopIteration
| FileNotFoundError
| SystemExit.

Inductive res (A : Type) : Type :=
| Ok (a : A)
| Raise (e : exn).
Arguments Ok {A} a.
Arguments Raise {A} e.

Definition is_ok {A} (r : res A) : bool :=
  match r with Ok _ => true | Raise _ => false end.

(** A computation over a store [S]: it returns or raises, and the store
    survives a raise (what was done before it stays done). *)
Definition M (S A : Type) : Type := S -> res A * S.

Definition ret {S A} (a : A) : M S A := fun s => (Ok a, s).

Definition bind {S A B} (c : M S A) (k : A -> M S B) : M S B :=
  fun s => match c s with
           | (Ok a, s1) => k a s1
           | (Raise e, s1) => (Raise e, s1)
           end.

Definition raise {S A} (e : exn) : M S A := fun s => (Raise e, s).

Definition get {S} : M S S := fun s => (Ok s, s).

Definition modify {S} (f : S -> S) : M S unit := fun s => (Ok tt, f s).

(** A partial kernel of the engine: [None] is a [RuntimeError]. *)
Definition lift {S A} (o : option A) : M S A :=
  match o with Some a => ret a | None => raise RuntimeError end.

(** Python's [a % b] on integers: [ZeroDivisionError] on a zero divisor,
    otherwise the remainder with the sign of the divisor. *)
Definition py_mod {S} (a b : Z) : M S Z :=
  if b =? 0 then raise ZeroDivisionError else ret (a mod b).

(** [range(lo, hi)]. *)
Definition range (lo hi : Z) : list Z :=
  map (fun i => lo + Z.of_nat i) (seq 0 (Z.to_nat (hi - lo))).

(** [enumerate(l)]. *)
Definition enumerate {A} (l : list A) : list (nat * A) :=
  combine (seq 0 (List.length l)) l.

(** [for x in l: acc = body(x, acc)], with no [break]. *)
Fixpoint for_each {S A B} (l : list A) (body : A -> B -> M S B) (acc : B)
    : M S B :=
  match l with
  | [] => ret acc
  | x :: r => bind (body x acc) (fun acc' => for_each r body acc')
  end.

(** [c] keeps the relation [R] between the store before and after. *)
Definition keeps {S A} (R : S -> S -> Prop) (c : M S A) : Prop :=
  forall s, R s (snd (c s)).

(** Started in a store satisfying [P], [c] returns, in a store satisfying
    [P]. *)
Definition total {S A} (P : S -> Prop) (c : M S A) : Prop :=
  forall s, P s -> exists a s1, c s = (Ok a, s1) /\ P s1.

End Py.

Declare Scope py_scope.
Delimit Scope py_scope with py.
Notation "x <- c ;; k" := (Py.bind c (fun x => k))
  (at level 61, c at next level, right associativity) : py_scope.
Notation "c ;; k" := (Py.bind c (fun _ => k))
  (at level 61, right associativity) : py_scope.

(* ===================================================================== *)
(** * Part I: [src/models/UNet.py] *)
(* ===================================================================== *)

Module Network.

(** The library primitives a forward pass can apply (kinds only: what is
    applied does not depend on the data). *)
Inductive prim : Type :=
| PConv2d (cin cout k : Z)
| PReLU
| PDropout
| PMaxPool2d (k s : Z)
| PConvTranspose2d (cin cout k s : Z)
| PInterpolate
| PCat.

Definition is_dropout (p : prim) : bool :=
  match p with PDropout => true | _ => false end.

Definition is_conv (p : prim) : bool :=
  match p with PConv2d _ _ _ => true | _ => false end.

Definition is_pool (p : prim) : bool :=
  match p with PMaxPool2d _ _ => true | _ => false end.

Definition is_upsampling (p : prim) : bool :=
  match p with PConvTranspose2d _ _ _ _ | PInterpolate => true | _ => false end.

Definition is_relu (p : prim) : bool :=
  match p with PReLU => true | _ => false end.

Definition is_cat (p : prim) : bool :=
  match p with PCat => true | _ => false end.

(** Convolution, ReLU, pooling, upsampling or concatenation. *)
Definition is_layer (p : prim) : bool :=
  is_conv p || is_relu p || is_pool p || is_upsampling p || is_cat p.

(** ** The layer objects built by the constructors *)

(** [nn.Conv2d(in_channels, out_channels, kernel_size)]; [conv_name] is the
    key of its parameters in the model's state dict. *)
Record Conv2d : Type := mkConv2d {
  conv_name : string;
  in_channels : Z;
  out_channels : Z;
  kernel_size : Z
}.

(** [nn.ConvTranspose2d(in_channels, out_channels, kernel_size, stride)]. *)
Record ConvTranspose2d : Type := mkConvTranspose2d {
  convt_name : string;
  convt_in_channels : Z;
  convt_out_channels : Z;
  convt_kernel_size : Z;
  convt_stride : Z
}.

(** [nn.MaxPool2d(kernel_size, stride)]. *)
Record MaxPool2d : Type := mkMaxPool2d {
  pool_kernel_size : Z;
  pool_stride : Z
}.

(** [nn.Dropout(p)]. *)
Record Dropout : Type := mkDropout { drop_prob : float }.

(** [nn.ReLU(inplace)]. *)
Record ReLU : Type := mkReLU { inplace : bool }.

Record _DoubleConvBlock : Type := mk_DoubleConvBlock {
  conv1 : Conv2d;
  conv2 : Conv2d;
  activation : ReLU
}.

Record _EncoderBlock : Type := mk_EncoderBlock {
  enc_double_conv_block : _DoubleConvBlock;
  dropout : option Dropout;
  pool : MaxPool2d
}.

Record _DecoderBlock : Type := mk_DecoderBlock {
  dec_double_conv_block : _DoubleConvBlock;
  conv_transpose : ConvTranspose2d
}.

Record UNet : Type := mkUNet {
  input : _EncoderBlock;
  enc1 : _EncoderBlock;
  enc2 : _EncoderBlock;
  enc3 : _EncoderBlock;
  center : _DecoderBlock;
  dec3 : _DecoderBlock;
  dec2 : _DecoderBlock;
  dec1 : _DecoderBlock;
  final : _DoubleConvBlock;
  output : Conv2d
}.

(** ** Constructors ([__init__]); [path] is the attribute path of the module
    inside the model, the prefix of its state-dict keys. *)

Definition _DoubleConvBlock_init (path : string) (in_c out_c k : Z)
    (act : ReLU) : _DoubleConvBlock :=
  {| conv1 := mkConv2d (path ++ ".conv1") in_c out_c k;
     conv2 := mkConv2d (path ++ ".conv2") out_c out_c k;
     activation := act |}.

(** Python truth value of a number: everything but zero. *)
Definition truthy (p : float) : bool := negb (PrimFloat.eqb p 0%float).

(** [self.dropout = nn.Dropout(p=drop_p) if drop_p else None]. *)
Definition _EncoderBlock_init (path : string) (in_c out_c : Z)
    (drop_p : float) : _EncoderBlock :=
  {| enc_double_conv_block :=
       _DoubleConvBlock_init (path ++ ".double_conv_block") in_c out_c 3
         (mkReLU true);
     dropout := if truthy drop_p then Some (mkDropout drop_p) else None;
     pool := mkMaxPool2d 2 2 |}.

Definition _DecoderBlock_init (path : string) (in_c mid_c out_c : Z)
    : _DecoderBlock :=
  {| dec_double_conv_block :=
       _DoubleConvBlock_init (path ++ ".double_conv_block") in_c mid_c 3
         (mkReLU true);
     conv_transpose :=
       mkConvTranspose2d (path ++ ".conv_transpose") mid_c out_c 2 2 |}.

(** [UNet.__init__]: every encoder block takes the default [drop_p = 0]. *)
Definition UNet_init (n_classes : Z) : UNet :=
  {| input := _EncoderBlock_init "input" 3 64 0%float;
     enc1 := _EncoderBlock_init "enc1" 64 128 0%float;
     enc2 := _EncoderBlock_init "enc2" 128 256 0%float;
     enc3 := _EncoderBlock_init "enc3" 256 512 0%float;
     center := _DecoderBlock_init "center" 512 1024 512;
     dec3 := _DecoderBlock_init "dec3" 1024 512 256;
     dec2 := _DecoderBlock_init "dec2" 512 256 128;
     dec1 := _DecoderBlock_init "dec1" 256 128 64;
     final := _DoubleConvBlock_init "final" 128 64 3 (mkReLU true);
     output := mkConv2d "output" 64 n_classes 1 |}.

(** ** Forward passes, over the kernels of the numerical engine *)

(** What the engine computes.  A kernel that checks shapes is partial:
    [None] is the library raising.  The parameters of a layer are looked up
    in the model's [weights] by the layer object. *)
Class Kernels : Type := {
  tensor : Type;
  weights : Type;
  rng : Type;
  size : tensor -> list Z;
  k_conv2d : weights -> Conv2d -> tensor -> option tensor;
  k_relu : tensor -> tensor;
  k_dropout : float -> rng -> tensor -> tensor * rng;
  k_max_pool2d : MaxPool2d -> tensor -> option tensor;
  k_conv_transpose2d : weights -> ConvTranspose2d -> tensor -> option tensor;
  k_interpolate : tensor -> list Z -> option tensor;
  k_cat : list tensor -> Z -> option tensor
}.

Section Forward.

Context {K : Kernels}.

(** The program state a forward pass can see or touch. *)
Record net_state : Type := mkNetState {
  params : weights;          (* the model's parameters *)
  training : bool;           (* [model.training] *)
  generator : rng;           (* the engine's random generator *)
  log : list string;         (* [logger.info] output *)
  applied : list prim        (* primitives applied so far, oldest first *)
}.

Definition N (A : Type) : Type := Py.M net_state A.

Definition apply_prim (p : prim) : N unit :=
  Py.modify (fun s => mkNetState (params s) (training s) (generator s)
                        (log s) (applied s ++ [p])).

(** [logger.info(msg)]. *)
Definition logger_info (msg : string) : N unit :=
  Py.modify (fun s => mkNetState (params s) (training s) (generator s)
                        (log s ++ [msg]) (applied s)).

Definition get_params : N weights := fun s => (Py.Ok (params s), s).

(** [nn.Conv2d.forward]: reads the layer's parameters. *)
Definition conv2d (l : Conv2d) (x : tensor) : N tensor :=
  (apply_prim (PConv2d (in_channels l) (out_channels l) (kernel_size l));;
   w <- get_params;;
   Py.lift (k_conv2d w l x))%py.

(** [nn.ReLU.forward]. *)
Definition relu (a : ReLU) (x : tensor) : N tensor :=
  (apply_prim PReLU;; Py.ret (k_relu x))%py.

(** [nn.Dropout.forward]: in training mode it draws a mask from the random
    generator; in evaluation mode it is the identity. *)
Definition dropout_forward (d : Dropout) (x : tensor) : N tensor :=
  (apply_prim PDropout;;
   s <- Py.get;;
   if training s then
     let (y, g) := k_dropout (drop_prob d) (generator s) x in
     (Py.modify (fun s => mkNetState (params s) (training s) g
                            (log s) (applied s));;
      Py.ret y)
   else Py.ret x)%py.

(** [nn.MaxPool2d.forward]. *)
Definition max_pool2d (l : MaxPool2d) (x : tensor) : N tensor :=
  (apply_prim (PMaxPool2d (pool_kernel_size l) (pool_stride l));;
   Py.lift (k_max_pool2d l x))%py.

(** [nn.ConvTranspose2d.forward]. *)
Definition conv_transpose2d (l : ConvTranspose2d) (x : tensor) : N tensor :=
  (apply_prim (PConvTranspose2d (convt_in_channels l) (convt_out_channels l)
                 (convt_kernel_size l) (convt_stride l));;
   w <- get_params;;
   Py.lift (k_conv_transpose2d w l x))%py.

(** [F.interpolate(x, size, mode='bilinear', align_corners=False)]. *)
Definition interpolate (x : tensor) (sz : list Z) : N tensor :=
  (apply_prim PInterpolate;; Py.lift (k_interpolate x sz))%py.

(** [torch.cat(ts, dim)]. *)
Definition cat (ts : list tensor) (dim : Z) : N tensor :=
  (apply_prim PCat;; Py.lift (k_cat ts dim))%py.

Definition _DoubleConvBlock_forward (self : _DoubleConvBlock) (x : tensor)
    : N tensor :=
  (logger_info "_DoubleConvBlock: START";;
   x <- conv2d (conv1 self) x;;
   x <- relu (activation self) x;;
   x <- conv2d (conv2 self) x;;
   x <- relu (activation self) x;;
   logger_info "_DoubleConvBlock: FINISH";;
   Py.ret x)%py.

(** [if self.dropout: x = self.dropout(x)]. *)
Definition maybe_dropout (d : option Dropout) (x : tensor) : N tensor :=
  match d with
  | Some d => dropout_forward d x
  | None => Py.ret x
  end.

Definition _EncoderBlock_forward (self : _EncoderBlock) (x : tensor)
    : N tensor :=
  (logger_info "_EncoderBlock: START";;
   x <- _DoubleConvBlock_forward (enc_double_conv_block self) x;;
   x <- maybe_dropout (dropout self) x;;
   x <- max_pool2d (pool self) x;;
   logger_info "_EncoderBlock: FINISH";;
   Py.ret x)%py.

Definition _DecoderBlock_forward (self : _DecoderBlock) (x : tensor)
    : N tensor :=
  (logger_info "_DecoderBlock: START";;
   x <- _DoubleConvBlock_forward (dec_double_conv_block self) x;;
   x <- conv_transpose2d (conv_transpose self) x;;
   logger_info "_DecoderBlock: FINISH";;
   Py.ret x)%py.

(** [x.size()[2:]]. *)
Definition spatial (x : tensor) : list Z := skipn 2 (size x).

Definition UNet_forward (self : UNet) (x : tensor) : N tensor :=
  (inp <- _EncoderBlock_forward (input self) x;;
   e1 <- _EncoderBlock_forward (enc1 self) inp;;
   e2 <- _EncoderBlock_forward (enc2 self) e1;;
   e3 <- _EncoderBlock_forward (enc3 self) e2;;
   cen <- _DecoderBlock_forward (center self) e3;;
   crop1 <- interpolate e3 (spatial cen);;
   c1 <- cat [cen; crop1] 1;;
   d3 <- _DecoderBlock_forward (dec3 self) c1;;
   crop2 <- interpolate e2 (spatial d3);;
   c2 <- cat [d3; crop2] 1;;
   d2 <- _DecoderBlock_forward (dec2 self) c2;;
   crop3 <- interpolate e1 (spatial d2);;
   c3 <- cat [d2; crop3] 1;;
   d1 <- _DecoderBlock_forward (dec1 self) c3;;
   crop4 <- interpolate inp (spatial d1);;
   c4 <- cat [d1; crop4] 1;;
   fin <- _DoubleConvBlock_forward (final self) c4;;
   out <- conv2d (output self) fin;;
   interpolate out (spatial x))%py.

End Forward.

(** ** What a forward pass may do to the program state *)

Section Purity.

Context {K : Kernels}.

(** The state later evaluations depend on is untouched: parameters, mode
    and random generator (the log and the record of applied primitives
    grow). *)
Definition same_model (s s' : net_state) : Prop :=
  params s' = params s /\ training s' = training s
  /\ generator s' = generator s.

(** The outcome depends on the parameters only. *)
Definition reads_params_only {A} (c : N A) : Prop :=
  forall s1 s2, params s1 = params s2 -> fst (c s1) = fst (c s2).

Definition pure_comp {A} (c : N A) : Prop :=
  Py.keeps same_model c /\ reads_params_only c.

(** [c] applies the primitives [l], in that order: all of them when it
    returns, a prefix of them when it raises. *)
Definition emits {A} (c : N A) (l : list prim) : Prop :=
  forall s, exists l',
    applied (snd (c s)) = applied s ++ l'
    /\ (exists r, l = l' ++ r)
    /\ (Py.is_ok (fst (c s)) = true -> l' = l).

End Purity.

(** ** The primitives a module applies, read off its structure *)

Definition conv_prim (l : Conv2d) : prim :=
  PConv2d (in_channels l) (out_channels l) (kernel_size l).

Definition _DoubleConvBlock_prims (self : _DoubleConvBlock) : list prim :=
  [conv_prim (conv1 self); PReLU; conv_prim (conv2 self); PReLU].

Definition _EncoderBlock_prims (self : _EncoderBlock) : list prim :=
  _DoubleConvBlock_prims (enc_double_conv_block self)
  ++ match dropout self with Some _ => [PDropout] | None => [] end
  ++ [PMaxPool2d (pool_kernel_size (pool self)) (pool_stride (pool self))].

Definition _DecoderBlock_prims (self : _DecoderBlock) : list prim :=
  _DoubleConvBlock_prims (dec_double_conv_block self)
  ++ [PConvTranspose2d (convt_in_channels (conv_transpose self))
        (convt_out_channels (conv_transpose self))
        (convt_kernel_size (conv_transpose self))
        (convt_stride (conv_transpose self))].

Definition UNet_prims (self : UNet) : list prim :=
  _EncoderBlock_prims (input self) ++ _EncoderBlock_prims (enc1 self)
  ++ _EncoderBlock_prims (enc2 self) ++ _EncoderBlock_prims (enc3 self)
  ++ _DecoderBlock_prims (center self) ++ [PInterpolate; PCat]
  ++ _DecoderBlock_prims (dec3 self) ++ [PInterpolate; PCat]
  ++ _DecoderBlock_prims (dec2 self) ++ [PInterpolate; PCat]
  ++ _DecoderBlock_prims (dec1 self) ++ [PInterpolate; PCat]
  ++ _DoubleConvBlock_prims (final self)
  ++ [conv_prim (output self); PInterpolate].

(** ** Tensor shapes: the kernels read as shape transformers

    A tensor is abstracted to its [size()], a list of dimensions; a kernel
    is undefined where the library raises on the shapes.  Only batched
    (4-dimensional) inputs are modelled. *)

Definition shape : Type := list Z.

(** Unpadded convolution, stride 1: the channels must match and the kernel
    must fit. *)
Definition shape_conv2d (_ : unit) (l : Conv2d) (x : shape) : option shape :=
  match x with
  | [n; c; h; w] =>
      if (c =? in_channels l) && (kernel_size l <=? h) && (kernel_size l <=? w)
      then Some [n; out_channels l; h - kernel_size l + 1; w - kernel_size l + 1]
      else None
  | _ => None
  end.

(** Max pooling, floor mode: the window must fit once. *)
Definition shape_max_pool2d (l : MaxPool2d) (x : shape) : option shape :=
  match x with
  | [n; c; h; w] =>
      if (pool_kernel_size l <=? h) && (pool_kernel_size l <=? w)
      then Some [n; c; (h - pool_kernel_size l) / pool_stride l + 1;
                 (w - pool_kernel_size l) / pool_stride l + 1]
      else None
  | _ => None
  end.

Definition shape_conv_transpose2d (_ : unit) (l : ConvTranspose2d) (x : shape)
    : option shape :=
  match x with
  | [n; c; h; w] =>
      if (c =? convt_in_channels l) && (1 <=? h) && (1 <=? w)
      then Some [n; convt_out_channels l;
                 (h - 1) * convt_stride l + convt_kernel_size l;
                 (w - 1) * convt_stride l + convt_kernel_size l]
      else None
  | _ => None
  end.

(** Bilinear interpolation to a given size: input and output sizes must be
    positive. *)
Definition shape_interpolate (x : shape) (sz : list Z) : option shape :=
  match x, sz with
  | [n; c; h; w], [oh; ow] =>
      if (0 <? h) && (0 <? w) && (0 <? oh) && (0 <? ow)
      then Some [n; c; oh; ow]
      else None
  | _, _ => None
  end.

(** Concatenation along dimension 1: the other dimensions must agree. *)
Fixpoint shape_cat_channels (acc : shape) (ts : list shape) : option shape :=
  match ts with
  | [] => Some acc
  | t :: r =>
      match acc, t with
      | [n; c; h; w], [n'; c'; h'; w'] =>
          if (n =? n') && (h =? h') && (w =? w')
          then shape_cat_channels [n; c + c'; h; w] r
          else None
      | _, _ => None
      end
  end.

Definition shape_cat (ts : list shape) (dim : Z) : option shape :=
  match ts with
  | t :: r => if dim =? 1 then shape_cat_channels t r else None
  | [] => None
  end.

(** The kernels on shapes: no parameters, no randomness. *)
Definition shape_kernels : Kernels :=
  {| tensor := shape;
     weights := unit;
     rng := unit;
     size := fun x => x;
     k_conv2d := shape_conv2d;
     k_relu := fun x => x;
     k_dropout := fun _ g x => (x, g);
     k_max_pool2d := shape_max_pool2d;
     k_conv_transpose2d := shape_conv_transpose2d;
     k_interpolate := shape_interpolate;
     k_cat := shape_cat |}.

Definition shape_state : Type := @net_state shape_kernels.

Definition shape_init : shape_state :=
  @mkNetState shape_kernels tt true tt [] [].

(** [UNet.forward] on shapes. *)
Definition forward_shape (self : UNet) (x : shape) : Py.M shape_state shape :=
  @UNet_forward shape_kernels self x.

(** On shapes, [c] returns [out] from every state. *)
Definition yields {A} (c : Py.M shape_state A) (out : A) : Prop :=
  forall s, exists s', c s = (Py.Ok out, s').

(** Kernels that only count: a tensor is a number, the random generator
    counts the masks drawn from it.  They show what a dropout layer does
    to the state. *)
Definition counting_kernels : Kernels :=
  {| tensor := Z;
     weights := unit;
     rng := nat;
     size := fun _ => [];
     k_conv2d := fun _ _ x => Some x;
     k_relu := fun x => x;
     k_dropout := fun _ g x => (x, S g);
     k_max_pool2d := fun _ x => Some x;
     k_conv_transpose2d := fun _ _ x => Some x;
     k_interpolate := fun x _ => Some x;
     k_cat := fun ts _ => Some (fold_right Z.add 0 ts) |}.

End Network.

(* ===================================================================== *)
(** * Part II: [src/main.py], the command line *)
(* ===================================================================== *)

(** The part of [argparse] that [main.py] uses: long options given exactly,
    as [--opt=value] or by an unambiguous prefix, the [store],
    [store_true] and help actions, [set_defaults].  Every way of rejecting
    the command line (and [--help]) ends in [SystemExit].  The [--]
    separator is accepted only as the last token. *)
Module Cli.

Open Scope string_scope.

Inductive value : Type :=
| VStr (s : string)
| VBool (b : bool).

Inductive action_kind : Type := Store | StoreTrue | Help.

Record Action : Type := mkAction {
  option_strings : list string;
  dest : string;
  kind : action_kind;
  default : option value       (* [None]: no attribute is set by default *)
}.

Record ArgumentParser : Type := mkParser {
  actions : list Action;
  defaults : list (string * value)
}.

Definition Namespace : Type := list (string * value).

Fixpoint getattr (ns : Namespace) (name : string) : option value :=
  match ns with
  | [] => None
  | (k, v) :: r => if String.eqb k name then Some v else getattr r name
  end.

Fixpoint setattr (ns : Namespace) (name : string) (v : value) : Namespace :=
  match ns with
  | [] => [(name, v)]
  | (k, v') :: r =>
      if String.eqb k name then (k, v) :: r else (k, v') :: setattr r name v
  end.

(** [argparse.ArgumentParser(...)]: only the help action. *)
Definition ArgumentParser_init : ArgumentParser :=
  mkParser [mkAction ["-h"; "--help"] "help" Help None] [].

(** [add_argument(flag, type=str, default=d)]. *)
Definition add_argument_store (p : ArgumentParser) (flag dest_name d : string)
    : ArgumentParser :=
  mkParser (actions p ++ [mkAction [flag] dest_name Store (Some (VStr d))])
           (defaults p).

(** [add_argument(flag, dest=dest_name, action='store_true')]: the default
    of a [store_true] action is [False]. *)
Definition add_argument_store_true (p : ArgumentParser)
    (flag dest_name : string) : ArgumentParser :=
  mkParser (actions p
            ++ [mkAction [flag] dest_name StoreTrue (Some (VBool false))])
           (defaults p).

(** [set_defaults(name=v)]: recorded in the parser and written over the
    default of every action with that destination. *)
Definition set_defaults (p : ArgumentParser) (name : string) (v : value)
    : ArgumentParser :=
  mkParser
    (map (fun a =>
            if String.eqb (dest a) name
            then mkAction (option_strings a) (dest a) (kind a) (Some v)
            else a)
         (actions p))
    (setattr (defaults p) name v).

(** The namespace before any token is read: action defaults first, then
    the parser-level defaults that are still missing. *)
Definition initial_namespace (p : ArgumentParser) : Namespace :=
  let ns :=
    fold_left (fun ns a =>
                 match default a, getattr ns (dest a) with
                 | Some v, None => setattr ns (dest a) v
                 | _, _ => ns
                 end)
              (actions p) [] in
  fold_left (fun ns kv =>
               match getattr ns (fst kv) with
               | None => setattr ns (fst kv) (snd kv)
               | Some _ => ns
               end)
            (defaults p) ns.

(** Split at the first [=]. *)
Fixpoint split_eq (s : string) : string * option string :=
  match s with
  | EmptyString => (EmptyString, None)
  | String c r =>
      if Ascii.eqb c "="%char then (EmptyString, Some r)
      else let (a, b) := split_eq r in (String c a, b)
  end.

Definition is_digit (c : Ascii.ascii) : bool :=
  let n := Ascii.nat_of_ascii c in (48 <=? n)%nat && (n <=? 57)%nat.

Fixpoint all_digits (s : string) : bool :=
  match s with
  | EmptyString => true
  | String c r => is_digit c && all_digits r
  end.

Fixpoint has_space (s : string) : bool :=
  match s with
  | EmptyString => false
  | String c r => Ascii.eqb c " "%char || has_space r
  end.

(** The regular expression [^-\d+$|^-\d*\.\d+$]. *)
Definition negative_number (s : string) : bool :=
  match s with
  | String "-"%char r =>
      let (a, b) := (fix dot (s : string) : string * option string :=
                       match s with
                       | EmptyString => (EmptyString, None)
                       | String c r =>
                           if Ascii.eqb c "."%char then (EmptyString, Some r)
                           else let (a, b) := dot r in (String c a, b)
                       end) r in
      match b with
      | None => negb (String.eqb a "") && all_digits a
      | Some f => all_digits a && negb (String.eqb f "") && all_digits f
      end
  | _ => false
  end.

Definition find_exact (p : ArgumentParser) (t : string) : option Action :=
  find (fun a => existsb (String.eqb t) (option_strings a)) (actions p).

(** The (action, option string) pairs whose option string starts with
    [pre]. *)
Definition find_abbrev (p : ArgumentParser) (pre : string) : list Action :=
  flat_map (fun a =>
              map (fun _ => a)
                  (filter (String.prefix pre) (option_strings a)))
           (actions p).

Inductive token_class : Type :=
| Positional
| Optional (a : Action) (explicit : option string)
| Rejected.

Definition classify (p : ArgumentParser) (t : string) : token_class :=
  if negb (String.prefix "-" t) then Positional
  else match find_exact p t with
  | Some a => Optional a None
  | None =>
      if String.eqb t "-" then Positional
      else
        let (os, ex) := split_eq t in
        match (match ex with Some _ => find_exact p os | None => None end) with
        | Some a => Optional a ex
        | None =>
            match (if String.prefix "--" t then find_abbrev p os
                   else match find_exact p (String.substring 0 2 t) with
                        | Some a => [a]
                        | None => []
                        end) with
            | [a] => if String.prefix "--" t then Optional a ex
                     else Optional a (Some (String.substring 2
                                              (String.length t - 2) t))
            | _ :: _ :: _ => Rejected
            | [] =>
                if negative_number t then Positional
                else if has_space t then Positional
                else Rejected
            end
        end
  end.

(** [parse_args(argv)]; [None] is [SystemExit].  There is no positional
    argument, so a positional token is an unrecognized argument. *)
Fixpoint consume (p : ArgumentParser) (ns : Namespace) (argv : list string)
    : option Namespace :=
  match argv with
  | [] => Some ns
  | t :: rest =>
      if String.eqb t "--" then
        match rest with [] => Some ns | _ :: _ => None end
      else
        match classify p t with
        | Positional | Rejected => None
        | Optional a explicit =>
            match kind a, explicit with
            | Help, _ => None
            | StoreTrue, None => consume p (setattr ns (dest a) (VBool true)) rest
            | StoreTrue, Some _ => None
            | Store, Some v => consume p (setattr ns (dest a) (VStr v)) rest
            | Store, None =>
                match rest with
                | v :: rest' =>
                    if String.eqb v "--" then None
                    else match classify p v with
                         | Positional =>
                             consume p (setattr ns (dest a) (VStr v)) rest'
                         | _ => None
                         end
                | [] => None
                end
            end
        end
  end.

Definition parse_args (p : ArgumentParser) (argv : list string)
    : option Namespace :=
  consume p (initial_namespace p) argv.

(** Lines 113-122 of [main.py]. *)
Definition parser : ArgumentParser :=
  let parser := ArgumentParser_init in
  let parser := add_argument_store parser "--phase" "phase" "train" in
  let parser := add_argument_store_true parser "--load" "load" in
  set_defaults parser "load" (VBool true).

(** Python truth value of an attribute. *)
Definition truth (v : option value) : bool :=
  match v with
  | Some (VBool b) => b
  | Some (VStr s) => negb (String.eqb s "")
  | None => false
  end.

(** What every namespace built by [main.py]'s parser holds. *)
Definition loaded (ns : Namespace) : Prop :=
  getattr ns "load" = Some (VBool true)
  /\ exists s, getattr ns "phase" = Some (VStr s).

(** [v == s] for an attribute [v] and a string [s]. *)
Definition is_str (v : option value) (s : string) : bool :=
  match v with
  | Some (VStr x) => String.eqb x s
  | _ => false
  end.

End Cli.

(* ===================================================================== *)
(** * Part III: [src/main.py], training, validation and inference *)
(* ===================================================================== *)

Module Main.

(** The numerical engine as [main.py] uses it.  [state_dict] is what the
    model and the optimizer hold (weights and optimizer state). *)
Class Engine : Type := {
  state_dict : Type;
  sample : Type;
  image : Type;
  tensor : Type;
  ndarray : Type;
  (* [sample['image']] *)
  sample_image : sample -> image;
  (* [model(image)], in training or evaluation mode *)
  model_call : state_dict -> bool -> image -> tensor;
  (* [criterion(model(sample['image']), sample['label']).item()] *)
  loss_item : state_dict -> bool -> sample -> float;
  (* [optimizer.zero_grad(); loss.backward(); optimizer.step()] *)
  optimizer_update : state_dict -> sample -> state_dict;
  (* [t.squeeze().permute(1, 2, 0).cpu().numpy()], given whether [t]
     requires grad; [None] is a [RuntimeError] *)
  to_numpy : bool -> tensor -> option ndarray
}.

(** The values [main.py] reads from the [config] package, which is not
    part of the sources: they are parameters. *)
Record config : Type := mkConfig {
  n_epochs : Z;
  val_freq : Z;
  print_freq : Z;
  resume_from_epoch : Z;
  min_val_loss : float
}.

Inductive pbar_desc : Type := Training | Validation.

Section WithEngine.

Context {E : Engine}.

Record data_loaders : Type := mkLoaders {
  train_loader : list sample;
  val_loader : list sample;
  test_loader : list sample
}.

(** The file at [cfg.model_path]. *)
Record checkpoint : Type := mkCheckpoint {
  ck_state_dict : state_dict;   (* model and optimizer state dicts *)
  ck_epoch : Z;
  ck_val_loss : float
}.

Inductive log_msg : Type :=
| LEpoch (k n : Z)               (* 'TRAINING: Epoch k/n' *)
| LEpochDone (loss : float)      (* 'Epoch done! Loss = ...' *)
| LValidation                    (* 'VALIDATION' *)
| LValLoss (v : float)           (* 'Validation loss: ...' *)
| LSkipped                       (* 'Skipped saving.' *)
| LPrediction (y : ndarray).

(** The calls made to the collaborators, in program order. *)
Inductive event : Type :=
| EModelTrain                                  (* model.train() *)
| EModelEval                                   (* model.eval() *)
| EForward (training grad : bool)              (* model(x), mode at the call *)
| EZeroGrad                                    (* optimizer.zero_grad() *)
| EBackward                                    (* loss.backward() *)
| EOptimStep                                   (* optimizer.step() *)
| ETqdm (total : nat) (desc : pbar_desc)       (* tqdm(total=, desc=) *)
| EPbarUpdate (n : Z)
| EPbarClose
| ELog (m : log_msg)                           (* logger.info *)
| ESaveVal (epoch : Z) (sd : state_dict) (val_loss : float)
                                               (* train_helpers.save_val_model *)
| ESaveEnd (sd : state_dict)                   (* train_helpers.save_end_model *)
| ETorchLoad.                                  (* torch.load(cfg.model_path) *)

(** The store: the model and optimizer objects, the engine's grad mode,
    the checkpoint file, and the calls made so far (oldest first). *)
Record world : Type := mkWorld {
  model_state : state_dict;
  model_training : bool;          (* model.training *)
  grad_enabled : bool;            (* torch.is_grad_enabled() *)
  checkpoint_file : option checkpoint;
  trace : list event
}.

Definition T (A : Type) : Type := Py.M world A.

Definition emit (ev : event) : T unit :=
  Py.modify (fun w => mkWorld (model_state w) (model_training w)
                        (grad_enabled w) (checkpoint_file w)
                        (trace w ++ [ev])).

Definition set_training (b : bool) : T unit :=
  Py.modify (fun w => mkWorld (model_state w) b (grad_enabled w)
                        (checkpoint_file w) (trace w)).

Definition set_state (sd : state_dict) : T unit :=
  Py.modify (fun w => mkWorld sd (model_training w) (grad_enabled w)
                        (checkpoint_file w) (trace w)).

(** [model.train()] and [model.eval()]. *)
Definition model_train : T unit := (emit EModelTrain;; set_training true)%py.
Definition model_eval : T unit := (emit EModelEval;; set_training false)%py.

(** [loss = criterion(model(sample['image']), sample['label'])], read
    through [loss.item()].  The forward pass runs in the current mode and
    under the current grad mode. *)
Definition forward_loss (s : sample) : T float :=
  (w <- Py.get;;
   emit (EForward (model_training w) (grad_enabled w));;
   Py.ret (loss_item (model_state w) (model_training w) s))%py.

(** [loss.backward()]: the parameters require grad, so the loss has a
    graph exactly when it was computed with grad mode enabled; without
    one the engine raises. *)
Definition backward : T unit :=
  (w <- Py.get;;
   if grad_enabled w then emit EBackward else Py.raise Py.RuntimeError)%py.

(** [optimizer.step()]. *)
Definition optimizer_step (s : sample) : T unit :=
  (w <- Py.get;;
   emit EOptimStep;;
   set_state (optimizer_update (model_state w) s))%py.

Definition float_of_nat (n : nat) : float :=
  PrimFloat.of_uint63 (Uint63.of_Z (Z.of_nat n)).

(** [x / len(loader)]. *)
Definition truediv_len (x : float) (n : nat) : T float :=
  match n with
  | O => Py.raise Py.ZeroDivisionError
  | S _ => Py.ret (PrimFloat.div x (float_of_nat n))
  end.

Variable cfg : config.
Variable dl : data_loaders.

(** [train_helpers.save_val_model(model, epoch, optimizer, val_loss, logger)]
    and [train_helpers.save_end_model(model, optimizer, logger)]: the
    helpers are not part of the sources; the calls are recorded with what
    the model and the optimizer hold at the call. *)
Definition save_val_model (epoch : Z) (val_loss : float) : T unit :=
  (w <- Py.get;; emit (ESaveVal epoch (model_state w) val_loss))%py.

Definition save_end_model : T unit :=
  (w <- Py.get;; emit (ESaveEnd (model_state w)))%py.

(** Body of the loop of [val] (lines 78-86). *)
Definition val_step (it : nat * sample) (val_loss : float) : T float :=
  (loss <- forward_loss (snd it);;
   let val_loss := PrimFloat.add val_loss loss in
   r <- Py.py_mod (Z.of_nat (fst it)) (print_freq cfg);;
   (if r =? 0 then emit (EPbarUpdate (print_freq cfg)) else Py.ret tt);;
   Py.ret val_loss)%py.

(** [val(model)] (lines 67-91).  The loop has no [break], so its [else]
    branch always follows it. *)
Definition val : T float :=
  (model_eval;;
   emit (ETqdm (List.length (val_loader dl)) Validation);;
   val_loss <- Py.for_each (Py.enumerate (val_loader dl)) val_step 0%float;;
   emit EPbarClose;;
   val_loss <- truediv_len val_loss (List.length (val_loader dl));;
   model_train;;
   Py.ret val_loss)%py.

(** Body of the inner loop of [train] (lines 35-46). *)
Definition train_step (it : nat * sample) (running_loss : float) : T float :=
  (r <- Py.py_mod (Z.of_nat (fst it) + 1) (print_freq cfg);;
   (if r =? 0 then emit (EPbarUpdate (print_freq cfg)) else Py.ret tt);;
   loss <- forward_loss (snd it);;
   emit EZeroGrad;;
   backward;;
   optimizer_step (snd it);;
   Py.ret (PrimFloat.add running_loss loss))%py.

(** Lines 52-61: one validation and the checkpoint decision.  Returns the
    new [min_val_loss]. *)
Definition validate_and_checkpoint (epoch : Z) (min_val_loss : float)
    : T float :=
  (emit (ELog LValidation);;
   model_eval;;
   val_loss <- val;;
   model_train;;
   emit (ELog (LValLoss val_loss));;
   if PrimFloat.ltb val_loss min_val_loss then
     (save_val_model epoch val_loss;; Py.ret val_loss)
   else
     (emit (ELog LSkipped);; Py.ret min_val_loss))%py.

(** Body of the epoch loop of [train] (lines 32-61). *)
Definition train_epoch (epoch : Z) (min_val_loss : float) : T float :=
  (emit (ELog (LEpoch (epoch + 1) (n_epochs cfg)));;
   emit (ETqdm (List.length (train_loader dl)) Training);;
   running_loss <-
     Py.for_each (Py.enumerate (train_loader dl)) train_step 0%float;;
   emit EPbarClose;;
   mean <- truediv_len running_loss (List.length (train_loader dl));;
   emit (ELog (LEpochDone mean));;
   r <- Py.py_mod epoch (val_freq cfg);;
   if r =? 0 then validate_and_checkpoint epoch min_val_loss
   else Py.ret min_val_loss)%py.

(** [train(model, optimizer, criterion, resume_from_epoch, min_val_loss)]
    (lines 19-63). *)
Definition train (resume_from : Z) (min_val : float) : T unit :=
  (model_train;;
   _ <- Py.for_each (Py.range resume_from (n_epochs cfg)) train_epoch min_val;;
   save_end_model)%py.

(** [test(model, test_image)] (lines 95-108). *)
Definition test (test_image : image) : T unit :=
  (model_eval;;
   w <- Py.get;;
   emit (EForward (model_training w) (grad_enabled w));;
   let prediction := model_call (model_state w) (model_training w) test_image in
   y <- Py.lift (to_numpy (grad_enabled w) prediction);;
   emit (ELog (LPrediction y));;
   model_train)%py.

(** [torch.load(cfg.model_path)]. *)
Definition torch_load : T checkpoint :=
  (emit ETorchLoad;;
   w <- Py.get;;
   match checkpoint_file w with
   | Some ck => Py.ret ck
   | None => Py.raise Py.FileNotFoundError
   end)%py.

(** Lines 134-140: the values [train] is started with. *)
Definition restore (args : Cli.Namespace) : T (Z * float) :=
  (if Cli.truth (Cli.getattr args "load") then
     (ck <- torch_load;;
      set_state (ck_state_dict ck);;
      Py.ret (ck_epoch ck, ck_val_loss ck))
   else Py.ret (resume_from_epoch cfg, min_val_loss cfg))%py.

(** The script body (lines 111-153). *)
Definition main (argv : list string) : T unit :=
  match Cli.parse_args Cli.parser argv with
  | None => Py.raise Py.SystemExit
  | Some args =>
      (rm <- restore args;;
       if Cli.is_str (Cli.getattr args "phase") "train" then
         train (fst rm) (snd rm)
       else if Cli.is_str (Cli.getattr args "phase") "test" then
         match test_loader dl with
         | s :: _ => test (sample_image s)
         | [] => Py.raise Py.StopIteration
         end
       else Py.raise Py.ValueError)%py
  end.

(** Store updates, to state what a run leaves behind. *)
Definition log_to (w : world) (evs : list event) : world :=
  mkWorld (model_state w) (model_training w) (grad_enabled w)
    (checkpoint_file w) (trace w ++ evs).

Definition with_mode (b : bool) (w : world) : world :=
  mkWorld (model_state w) b (grad_enabled w) (checkpoint_file w) (trace w).

(** The store once [val] has switched to evaluation mode and opened its
    progress bar. *)
Definition val_entered (w : world) : world :=
  mkWorld (model_state w) false (grad_enabled w) (checkpoint_file w)
    (trace w ++ [EModelEval; ETqdm (List.length (val_loader dl)) Validation]).

(** The store once the checkpoint [ck] has been read and loaded into the
    model and the optimizer. *)
Definition restored (ck : checkpoint) (w : world) : world :=
  mkWorld (ck_state_dict ck) (model_training w) (grad_enabled w)
    (checkpoint_file w) (trace w ++ [ETorchLoad]).

(** The three operations the module offers. *)
Inductive operation : Type :=
| OpTrain (resume_from : Z) (min_val : float)
| OpVal
| OpTest (test_image : image).

Definition run (op : operation) : T unit :=
  match op with
  | OpTrain r m => train r m
  | OpVal => (_ <- val;; Py.ret tt)%py
  | OpTest img => test img
  end.

End WithEngine.

(** ** What can be observed of a run in its trace *)

Section Observations.

Context {E : Engine}.

(** Epoch starts and validation passes, in order.  An epoch start is its
    log line ('TRAINING: Epoch k/n' with k = epoch + 1); a validation pass
    is the progress bar [val] opens. *)
Inductive mark : Type :=
| MEpoch (epoch : Z)
| MVal.

Definition mark_of (ev : event) : list mark :=
  match ev with
  | ELog (LEpoch k _) => [MEpoch (k - 1)]
  | ETqdm _ Validation => [MVal]
  | _ => []
  end.

Definition marks (tr : list event) : list mark := flat_map mark_of tr.


Definition epoch_of (ev : event) : list Z :=
  match ev with
  | ELog (LEpoch k _) => [k - 1]
  | _ => []
  end.

(** The epochs run, in order. *)
Definition epochs_run (tr : list event) : list Z := flat_map epoch_of tr.

(** The calls of a training step: forward under training mode, backward,
    optimizer step. *)
Definition is_training_step (ev : event) : bool :=
  match ev with
  | EForward true _ | EZeroGrad | EBackward | EOptimStep => true
  | _ => false
  end.

(** One step of minibatch gradient descent: a forward pass in training
    mode with grad mode enabled, [zero_grad], [backward],
    [optimizer.step]. *)
Definition gd_step : list event :=
  [EForward true true; EZeroGrad; EBackward; EOptimStep].

(** The calls of the training steps of a run, in order. *)
Definition training_calls (tr : list event) : list event :=
  filter is_training_step tr.

(** The model and optimizer state after one optimizer step per batch of
    the loader, in the loader's order. *)
Definition epoch_update (batches : list sample) (sd : state_dict)
    : state_dict :=
  fold_left optimizer_update batches sd.

(** What matters to checkpointing: epoch starts, validation losses as
    [train] receives them, and the two kinds of save. *)
Inductive ckpt : Type :=
| VEpoch (epoch : Z)
| VLoss (val_loss : float)
| VSave (epoch : Z) (val_loss : float)
| VEnd.

Definition ckpt_of (ev : event) : list ckpt :=
  match ev with
  | ELog (LEpoch k _) => [VEpoch (k - 1)]
  | ELog (LValLoss v) => [VLoss v]
  | ESaveVal e _ v => [VSave e v]
  | ESaveEnd _ => [VEnd]
  | _ => []
  end.

Definition ckpt_view (tr : list event) : list ckpt := flat_map ckpt_of tr.







(** A no-gradient pass: every forward pass runs with grad mode disabled
    and nothing is backpropagated. *)
Definition no_grad_event (ev : event) : bool :=
  match ev with
  | EForward _ g => negb g
  | EBackward => false
  | _ => true
  end.

Definition no_grad_pass (tr : list event) : bool := forallb no_grad_event tr.

(** What a validation pass does call: forward passes in evaluation mode
    under the grad mode [g] it was entered with, mode switches, the
    progress bar; never the optimizer, backward or a save. *)
Definition validation_event (g : bool) (ev : event) : bool :=
  match ev with
  | EForward t g' => negb t && Bool.eqb g' g
  | EModelTrain | EModelEval | ETqdm _ Validation | EPbarUpdate _
  | EPbarClose => true
  | _ => false
  end.

(** Events that none of the views above records. *)
Definition quiet (ev : event) : bool :=
  match ev with
  | ELog (LEpoch _ _) | ELog (LValLoss _) | ETqdm _ Validation
  | ESaveVal _ _ _ | ESaveEnd _ => false
  | _ => true
  end.

(** The trace grows by events that satisfy [P]. *)
Definition steps_with (P : event -> bool) (w w' : world) : Prop :=
  exists d, trace w' = trace w ++ d /\ forallb P d = true.

(** Relations between the store before and after a computation. *)
Definition same_grad (w w' : world) : Prop :=
  grad_enabled w' = grad_enabled w.

Definition same_mode (w w' : world) : Prop :=
  model_training w' = model_training w.

Definition same_state (w w' : world) : Prop :=
  model_state w' = model_state w.

(** Entered in evaluation mode under grad mode [g], a computation stays
    there, leaves the model and optimizer state alone and only makes the
    calls of a validation pass. *)
Definition in_eval (g : bool) (w w' : world) : Prop :=
  model_training w = false -> grad_enabled w = g ->
  model_training w' = false /\ grad_enabled w' = g
  /\ model_state w' = model_state w
  /\ steps_with (validation_event g) w w'.

Definition grad_on (w : world) : Prop := grad_enabled w = true.

(** The configuration under which no division in the loop is by zero. *)
Definition well_configured (cfg : config) (dl : data_loaders) : Prop :=
  print_freq cfg <> 0 /\ val_freq cfg <> 0
  /\ train_loader dl <> [] /\ val_loader dl <> [].

End Observations.

(** ** A small engine to run the loop on

    The state dict is the number of optimizer steps taken; a sample is the
    table of the losses it yields after 0, 1, 2, ... steps; converting a
    tensor that requires grad to an array raises. *)
Definition table_engine : Engine :=
  {| state_dict := Z;
     sample := list float;
     image := unit;
     tensor := unit;
     ndarray := unit;
     sample_image := fun _ => tt;
     model_call := fun _ _ _ => tt;
     loss_item := fun sd _ s => nth (Z.to_nat sd) s 0%float;
     optimizer_update := fun sd _ => sd + 1;
     to_numpy := fun g _ => if g then None else Some tt |}.

Definition table_cfg : config :=
  {| n_epochs := 3; val_freq := 1; print_freq := 1;
     resume_from_epoch := 0; min_val_loss := 1000%float |}.

Definition table_dl : @data_loaders table_engine :=
  @mkLoaders table_engine
    [[1%float]]
    [[9%float; 5%float; 7%float; 3%float]; [9%float; 7%float; 9%float; 4%float]]
    [[]].

(** Five epochs, validation every second one. *)
Definition table_cfg2 : config :=
  {| n_epochs := 5; val_freq := 2; print_freq := 2;
     resume_from_epoch := 0; min_val_loss := 1000%float |}.


Definition table_cfg_no_print : config :=
  {| n_epochs := 3; val_freq := 1; print_freq := 0;
     resume_from_epoch := 0; min_val_loss := 1000%float |}.

(** The store [main.py] starts in: untrained model, training mode (the
    default of a fresh module), grad mode enabled (the engine's default). *)
Definition table_world (ck : option (@checkpoint table_engine))
    : @world table_engine :=
  @mkWorld table_engine 0 true true ck [].

(** A checkpoint written at epoch 2 with validation loss 0.5. *)
Definition table_checkpoint : @checkpoint table_engine :=
  @mkCheckpoint table_engine 40 2 0.5%float.

End Main.

(* ===================================================================== *)
(** * Part IV: facts about the effect monad *)
(* ===================================================================== *)

Module PyFacts.

Import Py.

Lemma bind_ok_inv {S A B} (c : M S A) (k : A -> M S B) s b s' :
  bind c k s = (Ok b, s') ->
  exists a s1, c s = (Ok a, s1) /\ k a s1 = (Ok b, s').
Proof.
  unfold bind. destruct (c s) as [[a | e] s1]; intros H.
  - exists a, s1. split; [reflexivity | exact H].
  - discriminate H.
Qed.

Lemma bind_ok_intro {S A B} (c : M S A) (k : A -> M S B) s a s1 r :
  c s = (Ok a, s1) -> k a s1 = r -> bind c k s = r.
Proof. unfold bind. intros -> H. exact H. Qed.

Lemma bind_raise_intro {S A B} (c : M S A) (k : A -> M S B) s e s1 :
  c s = (Raise e, s1) -> bind c k s = (Raise e, s1).
Proof. unfold bind. intros ->. reflexivity. Qed.

Lemma lift_ok_inv {S A} (o : option A) (s : S) a s' :
  lift o s = (Ok a, s') -> o = Some a /\ s' = s.
Proof.
  destruct o as [x |]; unfold lift, ret, raise; intros H; inversion H; auto.
Qed.

(** A relation between the store before and after that is reflexive and
    transitive is kept by sequencing and by loops. *)
Section Frames.

Context {S : Type} (R : S -> S -> Prop).
Hypothesis R_refl : forall s, R s s.
Hypothesis R_trans : forall s1 s2 s3, R s1 s2 -> R s2 s3 -> R s1 s3.

Lemma keeps_ret {A} (a : A) : keeps R (ret a).
Proof. intros s. apply R_refl. Qed.

Lemma keeps_raise {A} e : keeps R (@raise S A e).
Proof. intros s. apply R_refl. Qed.

Lemma keeps_get : keeps R (@get S).
Proof. intros s. apply R_refl. Qed.

Lemma keeps_lift {A} (o : option A) : keeps R (lift o).
Proof. destruct o; [apply keeps_ret | apply keeps_raise]. Qed.

Lemma keeps_py_mod a b : keeps R (py_mod a b).
Proof. unfold py_mod. destruct (b =? 0); [apply keeps_raise | apply keeps_ret]. Qed.

Lemma keeps_bind {A B} (c : M S A) (k : A -> M S B) :
  keeps R c -> (forall a, keeps R (k a)) -> keeps R (bind c k).
Proof.
  intros Hc Hk s. unfold bind.
  specialize (Hc s). destruct (c s) as [[a | e] s1]; simpl in *.
  - eapply R_trans; [exact Hc | apply Hk].
  - exact Hc.
Qed.

Lemma keeps_for_each {A B} (l : list A) (body : A -> B -> M S B) :
  (forall x acc, keeps R (body x acc)) -> forall acc, keeps R (for_each l body acc).
Proof.
  intros Hb. induction l as [| x r IH]; intros acc; simpl.
  - apply keeps_ret.
  - apply keeps_bind; [apply Hb | exact IH].
Qed.

End Frames.


Lemma py_mod_inv {S} a b (s : S) r s' :
  py_mod a b s = (r, s') ->
  s' = s /\ ((b <> 0 /\ r = Ok (a mod b))
             \/ (b = 0 /\ r = Raise ZeroDivisionError)).
Proof.
  unfold py_mod. destruct (Z.eqb_spec b 0) as [-> | Hb]; intros H;
    inversion H; split; auto.
Qed.

(** A property of the store kept by every iteration that returns is kept
    by a loop that returns. *)
Lemma for_each_ok_invariant {S A B} (P : S -> Prop) (body : A -> B -> M S B) :
  (forall x acc s b s', P s -> body x acc s = (Ok b, s') -> P s') ->
  forall l acc s b s', P s -> for_each l body acc s = (Ok b, s') -> P s'.
Proof.
  intros Hb. induction l as [| x r IH]; intros acc s b s' Hs H; simpl in H.
  - inversion H. subst. exact Hs.
  - apply bind_ok_inv in H as (a & s1 & E & H).
    eapply IH; [| exact H]. eapply Hb; eauto.
Qed.

(** Totality is compositional. *)
Section Totality.

Context {S : Type} (P : S -> Prop).






End Totality.

(** [range] *)

Lemma range_length lo hi : List.length (range lo hi) = Z.to_nat (Z.max 0 (hi - lo)).
Proof.
  unfold range. rewrite length_map, length_seq.
  destruct (Z.max_spec 0 (hi - lo)) as [[H ->] | [H ->]]; [reflexivity |].
  destruct (hi - lo) eqn:E; try reflexivity; lia.
Qed.


Lemma range_cons lo hi : lo < hi -> range lo hi = lo :: range (lo + 1) hi.
Proof.
  intros H. unfold range.
  replace (Z.to_nat (hi - lo)) with (S (Z.to_nat (hi - (lo + 1)))) by lia.
  simpl. f_equal; [lia |].
  rewrite <- seq_shift, map_map. apply map_ext. intros i. lia.
Qed.

End PyFacts.

(* ===================================================================== *)
(** * Part V: facts about the network *)
(* ===================================================================== *)

Module NetworkFacts.

Import Py Network PyFacts.

Section Generic.

Context {K : Kernels}.

Lemma same_model_refl (s : net_state) : same_model s s.
Proof. repeat split. Qed.

Lemma same_model_trans (s1 s2 s3 : net_state) :
  same_model s1 s2 -> same_model s2 s3 -> same_model s1 s3.
Proof.
  unfold same_model. intros (a & b & c) (a' & b' & c').
  repeat split; congruence.
Qed.

(** *** Purity is compositional *)

Lemma pure_ret {A} (a : A) : pure_comp (ret a : N A).
Proof. split; [intros s; apply same_model_refl | intros s1 s2 _; reflexivity]. Qed.

Lemma pure_lift {A} (o : option A) : pure_comp (lift o : N A).
Proof.
  split; [intros s; destruct o; apply same_model_refl |].
  intros s1 s2 _. destruct o; reflexivity.
Qed.

Lemma pure_bind {A B} (c : N A) (k : A -> N B) :
  pure_comp c -> (forall a, pure_comp (k a)) -> pure_comp (bind c k).
Proof.
  intros [Hc1 Hc2] Hk. split.
  - apply (keeps_bind same_model same_model_trans); [exact Hc1 |].
    intros a. apply (Hk a).
  - intros s1 s2 Hp. unfold bind.
    pose proof (Hc2 s1 s2 Hp) as Hr.
    pose proof (Hc1 s1) as (P1 & _). pose proof (Hc1 s2) as (P2 & _).
    destruct (c s1) as [r1 t1], (c s2) as [r2 t2]; simpl in *. subst r2.
    destruct r1 as [a | e]; [| reflexivity].
    apply (Hk a). congruence.
Qed.

Lemma pure_apply_prim p : pure_comp (apply_prim p).
Proof. split; [intros s; repeat split | intros s1 s2 _; reflexivity]. Qed.

Lemma pure_logger_info msg : pure_comp (logger_info msg).
Proof. split; [intros s; repeat split | intros s1 s2 _; reflexivity]. Qed.

Lemma pure_get_params : pure_comp get_params.
Proof.
  split; [intros s; repeat split |].
  intros s1 s2 H. unfold get_params. simpl. now rewrite H.
Qed.

Create HintDb pure.
Create HintDb emits.

#[local] Hint Resolve pure_ret pure_lift pure_apply_prim pure_logger_info
  pure_get_params : pure.

Ltac pure_steps :=
  repeat (first [ solve [auto with pure] | apply pure_bind; [| intros ] ]).

Lemma pure_conv2d l x : pure_comp (conv2d l x).
Proof. unfold conv2d. pure_steps. Qed.

Lemma pure_relu a x : pure_comp (relu a x).
Proof. unfold relu. pure_steps. Qed.

Lemma pure_max_pool2d l x : pure_comp (max_pool2d l x).
Proof. unfold max_pool2d. pure_steps. Qed.

Lemma pure_conv_transpose2d l x : pure_comp (conv_transpose2d l x).
Proof. unfold conv_transpose2d. pure_steps. Qed.

Lemma pure_interpolate x sz : pure_comp (interpolate x sz).
Proof. unfold interpolate. pure_steps. Qed.

Lemma pure_cat ts d : pure_comp (cat ts d).
Proof. unfold cat. pure_steps. Qed.

#[local] Hint Resolve pure_conv2d pure_relu pure_max_pool2d
  pure_conv_transpose2d pure_interpolate pure_cat : pure.

Lemma pure_DoubleConvBlock self x : pure_comp (_DoubleConvBlock_forward self x).
Proof. unfold _DoubleConvBlock_forward. pure_steps. Qed.

#[local] Hint Resolve pure_DoubleConvBlock : pure.

(** An encoder block is pure when it holds no dropout layer. *)
Lemma pure_EncoderBlock self x :
  dropout self = None -> pure_comp (_EncoderBlock_forward self x).
Proof.
  intros H. unfold _EncoderBlock_forward. rewrite H. simpl. pure_steps.
Qed.

Lemma pure_DecoderBlock self x : pure_comp (_DecoderBlock_forward self x).
Proof. unfold _DecoderBlock_forward. pure_steps. Qed.

#[local] Hint Resolve pure_DecoderBlock : pure.

Lemma pure_UNet_forward n_classes x :
  pure_comp (UNet_forward (UNet_init n_classes) x).
Proof.
  unfold UNet_forward.
  repeat lazymatch goal with
         | |- pure_comp (bind _ _) => apply pure_bind; [| intros ]
         | |- pure_comp (_EncoderBlock_forward _ _) =>
             apply pure_EncoderBlock; reflexivity
         | |- _ => solve [auto with pure]
         end.
Qed.

(** *** The primitives applied, compositionally *)

Lemma emits_ret {A} (a : A) : emits (ret a : N A) [].
Proof.
  intros s. exists []. simpl. rewrite app_nil_r.
  repeat split. exists []. reflexivity.
Qed.

Lemma emits_lift {A} (o : option A) : emits (lift o : N A) [].
Proof.
  intros s. exists []. destruct o; simpl; rewrite app_nil_r;
    (repeat split; exists []; reflexivity).
Qed.

Lemma emits_logger_info msg : emits (logger_info msg) [].
Proof.
  intros s. exists []. simpl. rewrite app_nil_r.
  repeat split. exists []. reflexivity.
Qed.

Lemma emits_get_params : emits get_params [].
Proof.
  intros s. exists []. simpl. rewrite app_nil_r.
  repeat split. exists []. reflexivity.
Qed.

Lemma emits_apply_prim p : emits (apply_prim p) [p].
Proof.
  intros s. exists [p]. simpl. repeat split. exists []. reflexivity.
Qed.

Lemma emits_bind {A B} (c : N A) (k : A -> N B) l1 l2 :
  emits c l1 -> (forall a, emits (k a) l2) -> emits (bind c k) (l1 ++ l2).
Proof.
  intros Hc Hk s. unfold bind.
  destruct (Hc s) as (d1 & E1 & (r1 & P1) & F1).
  destruct (c s) as [[a | e] s1]; simpl in *.
  - specialize (F1 eq_refl). subst d1.
    destruct (Hk a s1) as (d2 & E2 & (r2 & P2) & F2).
    exists (l1 ++ d2). rewrite E2, E1, app_assoc. split; [reflexivity |].
    split.
    + exists r2. rewrite P2, app_assoc. reflexivity.
    + intros H. rewrite (F2 H). reflexivity.
  - exists d1. split; [exact E1 |]. split.
    + exists (r1 ++ l2). rewrite P1, app_assoc. reflexivity.
    + discriminate.
Qed.

Lemma emits_eq {A} (c : N A) l l' : emits c l -> l = l' -> emits c l'.
Proof. intros H <-. exact H. Qed.

#[local] Hint Resolve emits_ret emits_lift emits_logger_info emits_get_params
  emits_apply_prim : emits.

Ltac emits_steps :=
  eapply emits_eq;
  [ repeat (first [ solve [eauto with emits] | eapply emits_bind; [| intros ] ])
  | simpl; rewrite <- ?app_assoc; reflexivity ].

Lemma emits_conv2d l x : emits (conv2d l x) [conv_prim l].
Proof. unfold conv2d. emits_steps. Qed.

Lemma emits_relu a x : emits (relu a x) [PReLU].
Proof. unfold relu. emits_steps. Qed.

Lemma emits_max_pool2d l x :
  emits (max_pool2d l x) [PMaxPool2d (pool_kernel_size l) (pool_stride l)].
Proof. unfold max_pool2d. emits_steps. Qed.

Lemma emits_conv_transpose2d l x :
  emits (conv_transpose2d l x)
    [PConvTranspose2d (convt_in_channels l) (convt_out_channels l)
       (convt_kernel_size l) (convt_stride l)].
Proof. unfold conv_transpose2d. emits_steps. Qed.

Lemma emits_interpolate x sz : emits (interpolate x sz) [PInterpolate].
Proof. unfold interpolate. emits_steps. Qed.

Lemma emits_cat ts d : emits (cat ts d) [PCat].
Proof. unfold cat. emits_steps. Qed.

(** A dropout layer counts as applied in either mode. *)
Lemma emits_dropout_forward d x : emits (dropout_forward d x) [PDropout].
Proof.
  intros s. exists [PDropout]. unfold dropout_forward, bind, apply_prim, modify, get.
  simpl. destruct (training s); simpl.
  - destruct (k_dropout (drop_prob d) (generator s) x) as [y g]. simpl.
    repeat split. exists []. reflexivity.
  - repeat split. exists []. reflexivity.
Qed.

Lemma emits_maybe_dropout d x :
  emits (maybe_dropout d x)
    (match d with Some _ => [PDropout] | None => [] end).
Proof. destruct d; simpl; [apply emits_dropout_forward | apply emits_ret]. Qed.

#[local] Hint Resolve emits_conv2d emits_relu emits_max_pool2d
  emits_conv_transpose2d emits_interpolate emits_cat emits_maybe_dropout
  : emits.

Lemma emits_DoubleConvBlock self x :
  emits (_DoubleConvBlock_forward self x) (_DoubleConvBlock_prims self).
Proof. unfold _DoubleConvBlock_forward, _DoubleConvBlock_prims. emits_steps. Qed.

#[local] Hint Resolve emits_DoubleConvBlock : emits.

Lemma emits_EncoderBlock self x :
  emits (_EncoderBlock_forward self x) (_EncoderBlock_prims self).
Proof. unfold _EncoderBlock_forward, _EncoderBlock_prims. emits_steps. Qed.

Lemma emits_DecoderBlock self x :
  emits (_DecoderBlock_forward self x) (_DecoderBlock_prims self).
Proof. unfold _DecoderBlock_forward, _DecoderBlock_prims. emits_steps. Qed.

#[local] Hint Resolve emits_EncoderBlock emits_DecoderBlock : emits.

Lemma emits_UNet_forward self x :
  emits (UNet_forward self x) (UNet_prims self).
Proof. unfold UNet_forward, UNet_prims. emits_steps. Qed.

(** C6.  [UNet.forward] is a pure function of its input and the model
    parameters: an evaluation leaves the parameters, the mode and the random
    generator as they were, a second evaluation on the same input returns
    the same outcome, and so does an evaluation from any other state that
    holds the same parameters (only the log and the record of applied
    primitives differ). *)
Theorem UNet_forward_is_pure (n_classes : Z) (x : tensor) (s : net_state) :
  let run := UNet_forward (UNet_init n_classes) x in
  same_model s (snd (run s))
  /\ fst (run (snd (run s))) = fst (run s)
  /\ (forall s', params s' = params s -> fst (run s') = fst (run s)).
Proof.
  intros run. destruct (pure_UNet_forward n_classes x) as [Hk Hr].
  split; [apply Hk |]. split.
  - apply Hr. apply (Hk s).
  - intros s' H. apply Hr. exact H.
Qed.

Lemma UNet_prims_no_dropout n_classes :
  existsb is_dropout (UNet_prims (UNet_init n_classes)) = false.
Proof. reflexivity. Qed.

Lemma UNet_forward_applied (n_classes : Z) (x : tensor) (s : net_state) :
  exists l,
    applied (snd (UNet_forward (UNet_init n_classes) x s)) = applied s ++ l
    /\ (if is_ok (fst (UNet_forward (UNet_init n_classes) x s))
        then l = UNet_prims (UNet_init n_classes)
        else exists rest, UNet_prims (UNet_init n_classes) = l ++ rest)
    /\ existsb is_dropout l = false.
Proof.
  destruct (emits_UNet_forward (UNet_init n_classes) x s)
    as (l & E & (rest & P) & F).
  exists l. split; [exact E |]. split.
  - destruct (is_ok (fst (UNet_forward (UNet_init n_classes) x s)));
      [apply F; reflexivity | exists rest; exact P].
  - pose proof (UNet_prims_no_dropout n_classes) as H.
    rewrite P, existsb_app in H. apply orb_false_elim in H. apply H.
Qed.

(** C5 (amended).  The forward pass of the network built by
    [UNet.__init__] is a fixed composition of convolution, ReLU, max
    pooling, upsampling (transposed convolution and bilinear interpolation)
    and concatenation primitives: the sequence written out below, which
    depends on [n_classes] alone.  On an input on which the pass returns,
    exactly that sequence is applied; on an input on which a layer raises,
    a prefix of it.  No dropout primitive is applied on any input. *)
Theorem UNet_forward_fixed_composition (n_classes : Z) (x : tensor)
    (s : net_state) :
  let r := UNet_forward (UNet_init n_classes) x s in
  let fixed := UNet_prims (UNet_init n_classes) in
  fixed
  = [PConv2d 3 64 3; PReLU; PConv2d 64 64 3; PReLU; PMaxPool2d 2 2;
     PConv2d 64 128 3; PReLU; PConv2d 128 128 3; PReLU; PMaxPool2d 2 2;
     PConv2d 128 256 3; PReLU; PConv2d 256 256 3; PReLU; PMaxPool2d 2 2;
     PConv2d 256 512 3; PReLU; PConv2d 512 512 3; PReLU; PMaxPool2d 2 2;
     PConv2d 512 1024 3; PReLU; PConv2d 1024 1024 3; PReLU;
     PConvTranspose2d 1024 512 2 2; PInterpolate; PCat;
     PConv2d 1024 512 3; PReLU; PConv2d 512 512 3; PReLU;
     PConvTranspose2d 512 256 2 2; PInterpolate; PCat;
     PConv2d 512 256 3; PReLU; PConv2d 256 256 3; PReLU;
     PConvTranspose2d 256 128 2 2; PInterpolate; PCat;
     PConv2d 256 128 3; PReLU; PConv2d 128 128 3; PReLU;
     PConvTranspose2d 128 64 2 2; PInterpolate; PCat;
     PConv2d 128 64 3; PReLU; PConv2d 64 64 3; PReLU;
     PConv2d 64 n_classes 1; PInterpolate]
  /\ forallb is_layer fixed = true
  /\ existsb is_dropout fixed = false
  /\ exists l,
       applied (snd r) = applied s ++ l
       /\ (if is_ok (fst r) then l = fixed
           else exists rest, fixed = l ++ rest)
       /\ forallb is_layer l = true
       /\ existsb is_dropout l = false.
Proof.
  intros r fixed. split; [reflexivity |]. split; [reflexivity |].
  split; [reflexivity |].
  destruct (UNet_forward_applied n_classes x s) as (l & E & P & D).
  exists l. split; [exact E |]. split; [exact P |]. split; [| exact D].
  assert (F : forallb is_layer fixed = true) by reflexivity.
  fold r in P. fold fixed in P.
  destruct (is_ok (fst r)).
  - rewrite P. exact F.
  - destruct P as (rest & P). rewrite P, forallb_app in F.
    apply andb_true_iff in F. apply F.
Qed.

(** An encoder block applies a dropout primitive exactly when it was
    built with a [drop_p] that is not zero: on an evaluation that returns,
    the block built by [_EncoderBlock(in_channels, out_channels, drop_p)]
    applies convolution, ReLU, convolution, ReLU, dropout if [drop_p] is
    truthy, and 2x2 max pooling, in that order. *)
Theorem EncoderBlock_applies_dropout_iff (path : string) (cin cout : Z)
    (p : float) (x : tensor) (s : net_state) :
  let r := _EncoderBlock_forward (_EncoderBlock_init path cin cout p) x s in
  is_ok (fst r) = true ->
  applied (snd r)
  = applied s
    ++ [PConv2d cin cout 3; PReLU; PConv2d cout cout 3; PReLU]
    ++ (if truthy p then [PDropout] else [])
    ++ [PMaxPool2d 2 2].
Proof.
  intros r Hok.
  destruct (emits_EncoderBlock (_EncoderBlock_init path cin cout p) x s)
    as (l' & E & _ & F).
  fold r in E, F. rewrite E, (F Hok).
  unfold _EncoderBlock_prims, _EncoderBlock_init. simpl.
  destruct (truthy p); reflexivity.
Qed.

End Generic.

(** *** Shapes *)

Ltac inv_binds H :=
  repeat (lazymatch type of H with
          | bind _ _ _ = _ => apply bind_ok_inv in H
          end;
          let a := fresh "a" in let t := fresh "t" in let E := fresh "E" in
          destruct H as (a & t & E & H)).

Lemma conv2d_shape l x s y s' :
  @conv2d shape_kernels l x s = (Ok y, s') ->
  exists n h w,
    x = [n; in_channels l; h; w]
    /\ y = [n; out_channels l; h - kernel_size l + 1; w - kernel_size l + 1]
    /\ kernel_size l <= h /\ kernel_size l <= w.
Proof.
  unfold conv2d. intros H. inv_binds H.
  apply lift_ok_inv in H as [H _]. simpl in H. unfold shape_conv2d in H.
  destruct x as [| n [| c [| h [| w [| ? ?]]]]]; try discriminate.
  destruct (c =? in_channels l) eqn:Ec; try discriminate.
  destruct (kernel_size l <=? h) eqn:Eh; try discriminate.
  destruct (kernel_size l <=? w) eqn:Ew; try discriminate.
  simpl in H. injection H as <-.
  apply Z.eqb_eq in Ec. apply Z.leb_le in Eh, Ew. subst c.
  exists n, h, w. auto.
Qed.

Lemma relu_shape a x s y s' :
  @relu shape_kernels a x s = (Ok y, s') -> y = x.
Proof.
  unfold relu. intros H. inv_binds H. inversion H. reflexivity.
Qed.

Lemma max_pool2d_shape l x s y s' :
  @max_pool2d shape_kernels l x s = (Ok y, s') ->
  exists n c h w,
    x = [n; c; h; w]
    /\ y = [n; c; (h - pool_kernel_size l) / pool_stride l + 1;
            (w - pool_kernel_size l) / pool_stride l + 1]
    /\ pool_kernel_size l <= h /\ pool_kernel_size l <= w.
Proof.
  unfold max_pool2d. intros H. inv_binds H.
  apply lift_ok_inv in H as [H _]. simpl in H. unfold shape_max_pool2d in H.
  destruct x as [| n [| c [| h [| w [| ? ?]]]]]; try discriminate.
  destruct (pool_kernel_size l <=? h) eqn:Eh; try discriminate.
  destruct (pool_kernel_size l <=? w) eqn:Ew; try discriminate.
  simpl in H. injection H as <-. apply Z.leb_le in Eh, Ew.
  exists n, c, h, w. auto.
Qed.

Lemma conv_transpose2d_shape l x s y s' :
  @conv_transpose2d shape_kernels l x s = (Ok y, s') ->
  exists n h w,
    x = [n; convt_in_channels l; h; w]
    /\ y = [n; convt_out_channels l;
            (h - 1) * convt_stride l + convt_kernel_size l;
            (w - 1) * convt_stride l + convt_kernel_size l]
    /\ 1 <= h /\ 1 <= w.
Proof.
  unfold conv_transpose2d. intros H. inv_binds H.
  apply lift_ok_inv in H as [H _]. simpl in H.
  unfold shape_conv_transpose2d in H.
  destruct x as [| n [| c [| h [| w [| ? ?]]]]]; try discriminate.
  destruct (c =? convt_in_channels l) eqn:Ec; try discriminate.
  destruct (1 <=? h) eqn:Eh; try discriminate.
  destruct (1 <=? w) eqn:Ew; try discriminate.
  simpl in H. injection H as <-.
  apply Z.eqb_eq in Ec. apply Z.leb_le in Eh, Ew. subst c.
  exists n, h, w. auto.
Qed.

Lemma interpolate_shape x sz s y s' :
  @interpolate shape_kernels x sz s = (Ok y, s') ->
  exists n c h w oh ow,
    x = [n; c; h; w] /\ sz = [oh; ow] /\ y = [n; c; oh; ow]
    /\ 0 < h /\ 0 < w /\ 0 < oh /\ 0 < ow.
Proof.
  unfold interpolate. intros H. inv_binds H.
  apply lift_ok_inv in H as [H _]. simpl in H. unfold shape_interpolate in H.
  destruct x as [| n [| c [| h [| w [| ? ?]]]]]; try discriminate.
  destruct sz as [| oh [| ow [| ? ?]]]; try discriminate.
  destruct (0 <? h) eqn:E1; try discriminate.
  destruct (0 <? w) eqn:E2; try discriminate.
  destruct (0 <? oh) eqn:E3; try discriminate.
  destruct (0 <? ow) eqn:E4; try discriminate.
  simpl in H. injection H as <-. apply Z.ltb_lt in E1, E2, E3, E4.
  exists n, c, h, w, oh, ow. auto 10.
Qed.

Lemma cat_shape a b s y s' :
  @cat shape_kernels [a; b] 1 s = (Ok y, s') ->
  exists n c c' h w,
    a = [n; c; h; w] /\ b = [n; c'; h; w] /\ y = [n; c + c'; h; w].
Proof.
  unfold cat. intros H. inv_binds H.
  apply lift_ok_inv in H as [H _]. simpl in H.
  destruct a as [| n [| c [| h [| w [| ? ?]]]]]; try discriminate.
  destruct b as [| n' [| c' [| h' [| w' [| ? ?]]]]]; try discriminate.
  destruct (n =? n') eqn:E1; try discriminate.
  destruct (h =? h') eqn:E2; try discriminate.
  destruct (w =? w') eqn:E3; try discriminate.
  simpl in H. injection H as <-. apply Z.eqb_eq in E1, E2, E3. subst.
  exists n', c, c', h', w'. auto.
Qed.

Lemma DoubleConvBlock_shape path cin cout act x s y s' :
  @_DoubleConvBlock_forward shape_kernels
     (_DoubleConvBlock_init path cin cout 3 act) x s = (Ok y, s') ->
  exists n h w,
    x = [n; cin; h; w] /\ y = [n; cout; h - 4; w - 4] /\ 5 <= h /\ 5 <= w.
Proof.
  unfold _DoubleConvBlock_forward. intros H. inv_binds H.
  inversion H; subst; clear H.
  apply conv2d_shape in E0 as (n & h & w & -> & -> & Hh & Hw).
  apply relu_shape in E1 as ->.
  apply conv2d_shape in E2 as (n' & h' & w' & Ex & -> & Hh' & Hw').
  apply relu_shape in E3 as ->.
  cbn -[Z.mul Z.sub Z.add Z.div] in *. injection Ex as <- <- <-.
  exists n, h, w. repeat split; try lia. do 2 f_equal. f_equal; [lia |].
  f_equal. lia.
Qed.

Lemma EncoderBlock_shape path cin cout x s y s' :
  @_EncoderBlock_forward shape_kernels
     (_EncoderBlock_init path cin cout 0%float) x s = (Ok y, s') ->
  exists n h w,
    x = [n; cin; h; w]
    /\ y = [n; cout; (h - 6) / 2 + 1; (w - 6) / 2 + 1]
    /\ 6 <= h /\ 6 <= w.
Proof.
  unfold _EncoderBlock_forward. intros H. inv_binds H.
  inversion H; subst; clear H.
  apply DoubleConvBlock_shape in E0 as (n & h & w & -> & -> & Hh & Hw).
  simpl in E1. inversion E1; subst; clear E1.
  apply max_pool2d_shape in E2 as (n' & c' & h' & w' & Ex & -> & Hh' & Hw').
  cbn -[Z.mul Z.sub Z.add Z.div] in *. injection Ex as <- <- <- <-.
  exists n, h, w. repeat split; try lia.
  replace (h - 4 - 2) with (h - 6) by lia.
  replace (w - 4 - 2) with (w - 6) by lia. reflexivity.
Qed.

Lemma DecoderBlock_shape path cin mid cout x s y s' :
  @_DecoderBlock_forward shape_kernels
     (_DecoderBlock_init path cin mid cout) x s = (Ok y, s') ->
  exists n h w,
    x = [n; cin; h; w]
    /\ y = [n; cout; 2 * (h - 4); 2 * (w - 4)]
    /\ 5 <= h /\ 5 <= w.
Proof.
  unfold _DecoderBlock_forward. intros H. inv_binds H.
  inversion H; subst; clear H.
  apply DoubleConvBlock_shape in E0 as (n & h & w & -> & -> & Hh & Hw).
  apply conv_transpose2d_shape in E1 as (n' & h' & w' & Ex & -> & Hh' & Hw').
  cbn -[Z.mul Z.sub Z.add Z.div] in *. injection Ex as <- <- <-.
  exists n, h, w. repeat split; try lia. do 2 f_equal.
  f_equal; [lia |]. f_equal. lia.
Qed.

(** *** Shapes on which the layers are defined *)



Lemma yields_inv {A} (c : Py.M shape_state A) a s b s' :
  yields c a -> c s = (Ok b, s') -> b = a.
Proof. intros H E. destruct (H s) as (s1 & E1). congruence. Qed.











(** The blocks keep the batch size and set the channel count. *)
Lemma EncoderBlock_out path cin cout x s y s' :
  @_EncoderBlock_forward shape_kernels
     (_EncoderBlock_init path cin cout 0%float) x s = (Ok y, s') ->
  exists n h w h' w', x = [n; cin; h; w] /\ y = [n; cout; h'; w'].
Proof.
  intros H. apply EncoderBlock_shape in H as (n & h & w & -> & -> & _).
  exists n, h, w. eauto.
Qed.

Lemma DecoderBlock_out path cin mid cout x s y s' :
  @_DecoderBlock_forward shape_kernels
     (_DecoderBlock_init path cin mid cout) x s = (Ok y, s') ->
  exists n h w h' w', x = [n; cin; h; w] /\ y = [n; cout; h'; w'].
Proof.
  intros H. apply DecoderBlock_shape in H as (n & h & w & -> & -> & _).
  exists n, h, w. eauto.
Qed.

Lemma DoubleConvBlock_out path cin cout act x s y s' :
  @_DoubleConvBlock_forward shape_kernels
     (_DoubleConvBlock_init path cin cout 3 act) x s = (Ok y, s') ->
  exists n h w h' w', x = [n; cin; h; w] /\ y = [n; cout; h'; w'].
Proof.
  intros H. apply DoubleConvBlock_shape in H as (n & h & w & -> & -> & _).
  exists n, h, w. eauto.
Qed.

Lemma conv2d_out l x s y s' :
  @conv2d shape_kernels l x s = (Ok y, s') ->
  exists n h w h' w',
    x = [n; in_channels l; h; w] /\ y = [n; out_channels l; h'; w'].
Proof.
  intros H. apply conv2d_shape in H as (n & h & w & -> & -> & _).
  exists n, h, w. eauto.
Qed.

(** C3.  On every input of shape (N, 3, H, W) on which the forward pass
    is defined, [UNet.forward] returns a tensor of shape
    (N, n_classes, H, W): one class-score vector per input pixel. *)
Theorem UNet_forward_shape (n_classes N H W : Z) (s s' : shape_state)
    (out : shape) :
  forward_shape (UNet_init n_classes) [N; 3; H; W] s = (Ok out, s') ->
  out = [N; n_classes; H; W].
Proof.
  unfold forward_shape, UNet_forward, UNet_init. intros F.
  cbn [input enc1 enc2 enc3 center dec3 dec2 dec1 final output] in F.
  inv_binds F.
  apply EncoderBlock_out in E as (? & ? & ? & i0 & j0 & X & ->).
  injection X as <- <- <-.
  apply EncoderBlock_out in E0 as (? & ? & ? & i1 & j1 & X & ->).
  injection X as <- <- <-.
  apply EncoderBlock_out in E1 as (? & ? & ? & i2 & j2 & X & ->).
  injection X as <- <- <-.
  apply EncoderBlock_out in E2 as (? & ? & ? & i3 & j3 & X & ->).
  injection X as <- <- <-.
  apply DecoderBlock_out in E3 as (? & ? & ? & i4 & j4 & X & ->).
  injection X as <- <- <-.
  apply interpolate_shape in E4 as (? & ? & ? & ? & ? & ? & X & _ & -> & _).
  injection X as <- <- <- <-.
  apply cat_shape in E5 as (? & ? & ? & ? & ? & X & _ & ->).
  injection X as <- <- <- <-.
  apply DecoderBlock_out in E6 as (? & ? & ? & i7 & j7 & X & ->).
  injection X as <- _ <- <-.
  apply interpolate_shape in E7 as (? & ? & ? & ? & ? & ? & X & _ & -> & _).
  injection X as <- <- <- <-.
  apply cat_shape in E8 as (? & ? & ? & ? & ? & X & _ & ->).
  injection X as <- <- <- <-.
  apply DecoderBlock_out in E9 as (? & ? & ? & i10 & j10 & X & ->).
  injection X as <- _ <- <-.
  apply interpolate_shape in E10 as (? & ? & ? & ? & ? & ? & X & _ & -> & _).
  injection X as <- <- <- <-.
  apply cat_shape in E11 as (? & ? & ? & ? & ? & X & _ & ->).
  injection X as <- <- <- <-.
  apply DecoderBlock_out in E12 as (? & ? & ? & i13 & j13 & X & ->).
  injection X as <- _ <- <-.
  apply interpolate_shape in E13 as (? & ? & ? & ? & ? & ? & X & _ & -> & _).
  injection X as <- <- <- <-.
  apply cat_shape in E14 as (? & ? & ? & ? & ? & X & _ & ->).
  injection X as <- <- <- <-.
  apply DoubleConvBlock_out in E15 as (? & ? & ? & i16 & j16 & X & ->).
  injection X as <- _ <- <-.
  apply conv2d_out in E16 as (? & ? & ? & i17 & j17 & X & ->).
  injection X as <- <- <-.
  apply interpolate_shape in F as (? & ? & ? & ? & ? & ? & X & Z & -> & _).
  cbn in X, Z. injection X as <- <- _ _. injection Z as <- <-.
  reflexivity.
Qed.

(** The forward pass is defined on a 188 x 190 image, and not on a
    187 x 190 one. *)
Lemma UNet_forward_shape_witness :
  forward_shape (UNet_init 2) [1; 3; 188; 190] shape_init
  = (Ok [1; 2; 188; 190],
     snd (forward_shape (UNet_init 2) [1; 3; 188; 190] shape_init))
  /\ [1; 2; 188; 190] = [1; 2; 188; 190].
Proof.
  split; [vm_compute; reflexivity |].
  apply (UNet_forward_shape 2 1 188 190 shape_init
           (snd (forward_shape (UNet_init 2) [1; 3; 188; 190] shape_init))).
  vm_compute. reflexivity.
Defined.

Example UNet_forward_too_small :
  fst (forward_shape (UNet_init 2) [1; 3; 187; 190] shape_init)
  = Raise RuntimeError.
Proof. vm_compute. reflexivity. Qed.

(** C5 (as stated, refuted).  There is no input on which the forward pass
    of the network built by [UNet.__init__] applies a dropout primitive. *)
Lemma dropout_is_never_applied :
  ~ (exists (n_classes : Z) (x : shape),
       existsb is_dropout
         (applied (snd (forward_shape (UNet_init n_classes) x shape_init)))
       = true).
Proof.
  intros (n_classes & x & H).
  destruct (@UNet_forward_applied shape_kernels n_classes x shape_init)
    as (l & E & _ & D).
  unfold forward_shape in H. cbv zeta in E.
  change (applied shape_init) with (@nil prim) in E. simpl app in E.
  rewrite <- E in D.
  pose proof (eq_trans (eq_sym H) D) as Abs. discriminate Abs.
Qed.

(** *** The inputs the network accepts *)












Lemma EncoderBlock_applies_dropout_iff_witness :
  applied
    (snd (@_EncoderBlock_forward counting_kernels
            (_EncoderBlock_init "enc" 3 64 0.5%float) 7
            (@mkNetState counting_kernels tt true O [] [])))
  = applied (@mkNetState counting_kernels tt true O [] [])
    ++ [PConv2d 3 64 3; PReLU; PConv2d 64 64 3; PReLU]
    ++ (if truthy 0.5%float then [PDropout] else [])
    ++ [PMaxPool2d 2 2].
Proof.
  apply (@EncoderBlock_applies_dropout_iff counting_kernels "enc" 3 64
           0.5%float 7 (@mkNetState counting_kernels tt true O [] [])).
  reflexivity.
Defined.

(** What the model makes of a block that does hold a dropout layer: in
    training mode an evaluation advances the random generator, so such a
    block is not pure. *)
Example EncoderBlock_with_dropout_draws :
  let s := @mkNetState counting_kernels tt true O [] [] in
  let r := @_EncoderBlock_forward counting_kernels
             (_EncoderBlock_init "enc" 3 64 0.5%float) 7 s in
  generator (snd r) = 1%nat /\ existsb is_dropout (applied (snd r)) = true.
Proof. vm_compute. split; reflexivity. Qed.

End NetworkFacts.

(* ===================================================================== *)
(** * Part V': facts about the command line *)
(* ===================================================================== *)

Module CliFacts.

Import Cli.

Open Scope string_scope.

Lemma getattr_setattr_same ns name v :
  getattr (setattr ns name v) name = Some v.
Proof.
  induction ns as [| [k v'] r IH]; simpl.
  - rewrite String.eqb_refl. reflexivity.
  - destruct (String.eqb k name) eqn:Ek; simpl; rewrite Ek; auto.
Qed.

Lemma getattr_setattr_other ns name other v :
  name <> other -> getattr (setattr ns name v) other = getattr ns other.
Proof.
  intros Hn. induction ns as [| [k v'] r IH]; simpl.
  - destruct (String.eqb_spec name other); [contradiction | reflexivity].
  - destruct (String.eqb_spec k name) as [-> | Hk]; simpl.
    + destruct (String.eqb_spec name other); [contradiction | reflexivity].
    + destruct (String.eqb k other); auto.
Qed.

Lemma find_abbrev_in p pre a : In a (find_abbrev p pre) -> In a (actions p).
Proof.
  unfold find_abbrev. intros H. apply in_flat_map in H as (b & Hb & H).
  apply in_map_iff in H as (_ & <- & _). exact Hb.
Qed.

Lemma find_exact_in p t a : find_exact p t = Some a -> In a (actions p).
Proof. unfold find_exact. intros H. apply find_some in H. apply H. Qed.

(** An option token always stands for one of the parser's actions. *)
Lemma classify_in p t a ex :
  classify p t = Optional a ex -> In a (actions p).
Proof.
  unfold classify.
  destruct (negb (String.prefix "-" t)); [discriminate |].
  destruct (find_exact p t) as [a0 |] eqn:E0.
  { intros H. inversion H; subst. eapply find_exact_in; eauto. }
  destruct (String.eqb t "-"); [discriminate |].
  destruct (split_eq t) as [os ex0].
  destruct (match ex0 with Some _ => find_exact p os | None => None end)
    as [a1 |] eqn:E1.
  { destruct ex0; [| discriminate]. intros H. inversion H; subst.
    eapply find_exact_in; eauto. }
  destruct (String.prefix "--" t).
  - destruct (find_abbrev p os) as [| b [| c l]] eqn:Ea.
    + destruct (negative_number t); [discriminate |].
      destruct (has_space t); discriminate.
    + intros H. inversion H; subst. apply (find_abbrev_in p os).
      rewrite Ea. left. reflexivity.
    + discriminate.
  - destruct (find_exact p (String.substring 0 2 t)) as [b |] eqn:Eb.
    + intros H. inversion H; subst. eapply find_exact_in; eauto.
    + destruct (negative_number t); [discriminate |].
      destruct (has_space t); discriminate.
Qed.

Lemma parser_store_true a :
  In a (actions parser) -> kind a = StoreTrue -> dest a = "load".
Proof.
  simpl. intros [<- | [<- | [<- | []]]]; simpl; intros H;
    try discriminate H; reflexivity.
Qed.

Lemma parser_store a :
  In a (actions parser) -> kind a = Store -> dest a = "phase".
Proof.
  simpl. intros [<- | [<- | [<- | []]]]; simpl; intros H;
    try discriminate H; reflexivity.
Qed.

Lemma loaded_store_true ns : loaded ns -> loaded (setattr ns "load" (VBool true)).
Proof.
  intros (_ & s & Hs). split; [apply getattr_setattr_same |].
  exists s. rewrite getattr_setattr_other; [exact Hs | discriminate].
Qed.

Lemma loaded_store ns v : loaded ns -> loaded (setattr ns "phase" (VStr v)).
Proof.
  intros (Hl & _). split.
  - rewrite getattr_setattr_other; [exact Hl | discriminate].
  - exists v. apply getattr_setattr_same.
Qed.

Lemma consume_loaded n :
  forall argv ns ns',
  (List.length argv <= n)%nat -> loaded ns ->
  consume parser ns argv = Some ns' -> loaded ns'.
Proof.
  induction n as [| n IH]; intros argv ns ns' Hn Hns.
  - destruct argv; [| simpl in Hn; lia]. simpl. intros H. inversion H; subst.
    exact Hns.
  - destruct argv as [| t rest]; simpl.
    { intros H. inversion H; subst. exact Hns. }
    simpl in Hn.
    destruct (String.eqb t "--").
    { destruct rest; [| discriminate]. intros H. inversion H; subst.
      exact Hns. }
    destruct (classify parser t) as [| a ex |] eqn:Ec; try discriminate.
    apply classify_in in Ec.
    destruct (kind a) eqn:Ek.
    + pose proof (parser_store a Ec Ek) as Hd. rewrite Hd.
      destruct ex as [v |].
      * apply IH; [lia | apply loaded_store; exact Hns].
      * destruct rest as [| v rest']; [discriminate |].
        destruct (String.eqb v "--"); [discriminate |].
        destruct (classify parser v); try discriminate.
        apply IH; [simpl in Hn; lia | apply loaded_store; exact Hns].
    + pose proof (parser_store_true a Ec Ek) as Hd. rewrite Hd.
      destruct ex; [discriminate |].
      apply IH; [lia | apply loaded_store_true; exact Hns].
    + destruct ex; discriminate.
Qed.


Lemma parse_args_loaded argv ns :
  parse_args parser argv = Some ns -> loaded ns.
Proof.
  unfold parse_args. intros H.
  apply (consume_loaded (List.length argv) argv _ ns (Nat.le_refl _)) in H;
    [exact H |].
  split; [reflexivity | exists "train"; reflexivity].
Qed.


End CliFacts.

(* ===================================================================== *)
(** * Part VI: facts about training, validation and inference *)
(* ===================================================================== *)

Module MainFacts.

Import Py PyFacts Main.

Section WithEngine.

Context {E : Engine}.
Variable cfg : config.
Variable dl : data_loaders.

(** *** Relations kept by the primitives *)

Lemma keeps_modify (R : world -> world -> Prop) (f : world -> world) :
  (forall w, R w (f w)) -> keeps R (modify f).
Proof. intros H w. apply H. Qed.

Lemma steps_with_refl P (w : world) : steps_with P w w.
Proof. exists []. rewrite app_nil_r. split; reflexivity. Qed.

Lemma steps_with_trans P (w1 w2 w3 : world) :
  steps_with P w1 w2 -> steps_with P w2 w3 -> steps_with P w1 w3.
Proof.
  intros (d1 & E1 & F1) (d2 & E2 & F2). exists (d1 ++ d2).
  rewrite E2, E1, app_assoc, forallb_app, F1, F2. split; reflexivity.
Qed.

Lemma steps_with_one P (w w' : world) ev :
  trace w' = trace w ++ [ev] -> P ev = true -> steps_with P w w'.
Proof. intros H1 H2. exists [ev]. simpl. rewrite H2. auto. Qed.

Lemma steps_with_same P (w w' : world) :
  trace w' = trace w -> steps_with P w w'.
Proof. intros H. exists []. rewrite app_nil_r. auto. Qed.

Lemma same_grad_refl (w : world) : same_grad w w.
Proof. reflexivity. Qed.

Lemma same_grad_trans (w1 w2 w3 : world) :
  same_grad w1 w2 -> same_grad w2 w3 -> same_grad w1 w3.
Proof. unfold same_grad. congruence. Qed.

Lemma same_mode_refl (w : world) : same_mode w w.
Proof. reflexivity. Qed.

Lemma same_mode_trans (w1 w2 w3 : world) :
  same_mode w1 w2 -> same_mode w2 w3 -> same_mode w1 w3.
Proof. unfold same_mode. congruence. Qed.

Lemma same_state_refl (w : world) : same_state w w.
Proof. reflexivity. Qed.

Lemma same_state_trans (w1 w2 w3 : world) :
  same_state w1 w2 -> same_state w2 w3 -> same_state w1 w3.
Proof. unfold same_state. congruence. Qed.

Lemma in_eval_refl g (w : world) : in_eval g w w.
Proof. intros H1 H2. repeat split; auto. apply steps_with_refl. Qed.

Lemma in_eval_trans g (w1 w2 w3 : world) :
  in_eval g w1 w2 -> in_eval g w2 w3 -> in_eval g w1 w3.
Proof.
  intros H12 H23 A B. destruct (H12 A B) as (A2 & B2 & C2 & D2).
  destruct (H23 A2 B2) as (A3 & B3 & C3 & D3).
  repeat split; auto; [congruence | eapply steps_with_trans; eauto].
Qed.

(** Sequencing, branching and the store primitives, for a relation given
    with its reflexivity and transitivity; [atom] closes the goal left by
    a store update. *)
Ltac keeps_go Hrefl Htrans atom :=
  repeat first
    [ apply (keeps_ret _ Hrefl)
    | apply (keeps_raise _ Hrefl)
    | apply (keeps_get _ Hrefl)
    | apply (keeps_lift _ Hrefl)
    | apply (keeps_py_mod _ Hrefl)
    | apply keeps_modify; intros; atom
    | match goal with
      | |- keeps _ (if ?b then _ else _) => destruct b
      | |- keeps _ (match ?x with _ => _ end) => destruct x
      | |- keeps _ (bind _ _) => apply (keeps_bind _ Htrans); [| intros ]
      end ].

Ltac unfold_prims :=
  unfold model_train, model_eval, forward_loss, backward, optimizer_step,
    save_val_model, save_end_model, truediv_len, emit, set_training,
    set_state.

Ltac quiet_atom :=
  first [ apply steps_with_same; reflexivity
        | eapply steps_with_one; [reflexivity | reflexivity] ].

Lemma train_step_quiet it acc :
  keeps (steps_with quiet) (train_step cfg it acc).
Proof.
  unfold train_step. unfold_prims.
  keeps_go (steps_with_refl quiet) (steps_with_trans quiet) quiet_atom.
Qed.

Ltac refl_atom := reflexivity.

Lemma train_step_same_grad it acc : keeps same_grad (train_step cfg it acc).
Proof.
  unfold train_step. unfold_prims.
  keeps_go same_grad_refl same_grad_trans refl_atom.
Qed.

Lemma train_step_same_mode it acc : keeps same_mode (train_step cfg it acc).
Proof.
  unfold train_step. unfold_prims.
  keeps_go same_mode_refl same_mode_trans refl_atom.
Qed.

Lemma val_step_quiet it acc : keeps (steps_with quiet) (val_step cfg it acc).
Proof.
  unfold val_step. unfold_prims.
  keeps_go (steps_with_refl quiet) (steps_with_trans quiet) quiet_atom.
Qed.

Lemma val_step_same_grad it acc : keeps same_grad (val_step cfg it acc).
Proof.
  unfold val_step. unfold_prims.
  keeps_go same_grad_refl same_grad_trans refl_atom.
Qed.

Lemma val_step_same_mode it acc : keeps same_mode (val_step cfg it acc).
Proof.
  unfold val_step. unfold_prims.
  keeps_go same_mode_refl same_mode_trans refl_atom.
Qed.

Lemma val_step_same_state it acc : keeps same_state (val_step cfg it acc).
Proof.
  unfold val_step. unfold_prims.
  keeps_go same_state_refl same_state_trans refl_atom.
Qed.

(** What one iteration of the validation loop does, in full. *)
Lemma val_step_run it acc w :
  val_step cfg it acc w
  = if print_freq cfg =? 0 then
      (Raise ZeroDivisionError,
       mkWorld (model_state w) (model_training w) (grad_enabled w)
         (checkpoint_file w)
         (trace w ++ [EForward (model_training w) (grad_enabled w)]))
    else
      (Ok (PrimFloat.add acc
             (loss_item (model_state w) (model_training w) (snd it))),
       mkWorld (model_state w) (model_training w) (grad_enabled w)
         (checkpoint_file w)
         (trace w ++ EForward (model_training w) (grad_enabled w)
            :: if Z.of_nat (fst it) mod print_freq cfg =? 0
               then [EPbarUpdate (print_freq cfg)] else [])).
Proof.
  unfold val_step, forward_loss, py_mod, bind, get, emit, modify, ret, raise.
  simpl. destruct (print_freq cfg =? 0); [reflexivity |].
  destruct (Z.of_nat (fst it) mod print_freq cfg =? 0); simpl;
    [rewrite <- app_assoc | ]; reflexivity.
Qed.

Lemma val_step_in_eval g it acc : keeps (in_eval g) (val_step cfg it acc).
Proof.
  intros w. rewrite val_step_run. intros Hm Hg.
  destruct (print_freq cfg =? 0); simpl.
  - repeat split; auto. eapply steps_with_one; [reflexivity |].
    simpl. rewrite Hm, Hg, Bool.eqb_reflx. reflexivity.
  - repeat split; auto.
    exists (EForward (model_training w) (grad_enabled w)
            :: if Z.of_nat (fst it) mod print_freq cfg =? 0
               then [EPbarUpdate (print_freq cfg)] else []).
    split; [reflexivity |]. simpl. rewrite Hm, Hg, Bool.eqb_reflx. simpl.
    destruct (Z.of_nat (fst it) mod print_freq cfg =? 0); reflexivity.
Qed.

(** *** The loops *)

Lemma train_loop_quiet l acc :
  keeps (steps_with quiet) (for_each l (train_step cfg) acc).
Proof.
  apply (keeps_for_each _ (steps_with_refl quiet) (steps_with_trans quiet)).
  apply train_step_quiet.
Qed.

Lemma train_loop_same_grad l acc :
  keeps same_grad (for_each l (train_step cfg) acc).
Proof.
  apply (keeps_for_each _ same_grad_refl same_grad_trans).
  apply train_step_same_grad.
Qed.

Lemma train_loop_same_mode l acc :
  keeps same_mode (for_each l (train_step cfg) acc).
Proof.
  apply (keeps_for_each _ same_mode_refl same_mode_trans).
  apply train_step_same_mode.
Qed.

Lemma val_loop_quiet l acc :
  keeps (steps_with quiet) (for_each l (val_step cfg) acc).
Proof.
  apply (keeps_for_each _ (steps_with_refl quiet) (steps_with_trans quiet)).
  apply val_step_quiet.
Qed.

Lemma val_loop_same_grad l acc :
  keeps same_grad (for_each l (val_step cfg) acc).
Proof.
  apply (keeps_for_each _ same_grad_refl same_grad_trans).
  apply val_step_same_grad.
Qed.

Lemma val_loop_same_mode l acc :
  keeps same_mode (for_each l (val_step cfg) acc).
Proof.
  apply (keeps_for_each _ same_mode_refl same_mode_trans).
  apply val_step_same_mode.
Qed.

Lemma val_loop_same_state l acc :
  keeps same_state (for_each l (val_step cfg) acc).
Proof.
  apply (keeps_for_each _ same_state_refl same_state_trans).
  apply val_step_same_state.
Qed.

Lemma val_loop_in_eval g l acc :
  keeps (in_eval g) (for_each l (val_step cfg) acc).
Proof.
  apply (keeps_for_each _ (in_eval_refl g) (in_eval_trans g)).
  apply val_step_in_eval.
Qed.

(** *** [val] *)

Lemma val_unfold w :
  val cfg dl w
  = match for_each (enumerate (val_loader dl)) (val_step cfg) 0%float
            (val_entered dl w) with
    | (Ok v, w2) =>
        match List.length (val_loader dl) with
        | O =>
            (Raise ZeroDivisionError,
             mkWorld (model_state w2) (model_training w2) (grad_enabled w2)
               (checkpoint_file w2) (trace w2 ++ [EPbarClose]))
        | S n =>
            (Ok (PrimFloat.div v (float_of_nat (S n))),
             mkWorld (model_state w2) true (grad_enabled w2)
               (checkpoint_file w2) (trace w2 ++ [EPbarClose; EModelTrain]))
        end
    | (Raise e, w2) => (Raise e, w2)
    end.
Proof.
  unfold val, val_entered. unfold_prims.
  unfold bind at 1 2 3. unfold modify at 1 2 3. simpl.
  rewrite <- app_assoc. simpl.
  unfold bind at 1.
  destruct (for_each (enumerate (val_loader dl)) (val_step cfg) 0%float _)
    as [[v | e] w2]; [| reflexivity].
  unfold bind, modify, ret, raise. simpl.
  destruct (List.length (val_loader dl)); simpl;
    [| rewrite <- app_assoc]; reflexivity.
Qed.

(** The value of the validation loop: the losses of the batches, added
    left to right. *)
Lemma val_loop_value :
  print_freq cfg <> 0 ->
  forall l i acc w,
  exists w1,
    for_each (combine (seq i (List.length l)) l) (val_step cfg) acc w
    = (Ok (fold_left PrimFloat.add
             (map (loss_item (model_state w) (model_training w)) l) acc),
       w1).
Proof.
  intros Hp. induction l as [| x r IH]; intros i acc w; simpl.
  - exists w. reflexivity.
  - unfold bind. rewrite val_step_run.
    destruct (Z.eqb_spec (print_freq cfg) 0) as [Hz | _]; [contradiction |].
    match goal with
    | |- context [for_each _ _ ?a ?w'] =>
        destruct (IH (S i) a w') as (w1 & Hrun)
    end.
    exists w1. rewrite Hrun. reflexivity.
Qed.

Lemma val_value w :
  print_freq cfg <> 0 ->
  fst (val cfg dl w)
  = match val_loader dl with
    | [] => Raise ZeroDivisionError
    | _ :: _ =>
        Ok (PrimFloat.div
              (fold_left PrimFloat.add
                 (map (loss_item (model_state w) false) (val_loader dl))
                 0%float)
              (float_of_nat (List.length (val_loader dl))))
    end.
Proof.
  intros Hp. rewrite val_unfold. unfold enumerate.
  destruct (val_loop_value Hp (val_loader dl) 0%nat 0%float (val_entered dl w))
    as (w1 & ->).
  destruct (val_loader dl); reflexivity.
Qed.

Lemma val_empty w :
  val_loader dl = [] -> fst (val cfg dl w) = Raise ZeroDivisionError.
Proof. intros H. rewrite val_unfold, H. reflexivity. Qed.

(** [val] returns exactly when the loader is not empty (and the progress
    period is not zero). *)
Lemma val_total (P : world -> Prop) :
  (forall w w', same_grad w w' -> P w -> P w') ->
  print_freq cfg <> 0 -> val_loader dl <> [] -> total P (val cfg dl).
Proof.
  intros HP Hp Hl w Hw.
  pose proof (val_value w Hp) as V.
  destruct (val cfg dl w) as [r w'] eqn:Ev. simpl in V.
  destruct (val_loader dl) as [| x l] eqn:El; [contradiction |].
  subst r. eexists _, w'. split; [reflexivity |].
  apply (HP w); [| exact Hw].
  replace w' with (snd (val cfg dl w)) by (rewrite Ev; reflexivity).
  rewrite val_unfold.
  pose proof (val_loop_same_grad (enumerate (val_loader dl)) 0%float
                (val_entered dl w)) as G.
  destruct (for_each (enumerate (val_loader dl)) (val_step cfg) 0%float _)
    as [[v | e] w2]; unfold same_grad in *; simpl in *;
    [destruct (List.length (val_loader dl)) |]; simpl; exact G.
Qed.

(** Whatever happens, [val] makes only the calls of a validation pass,
    under the grad mode it was entered with; it opens its progress bar
    once, at the start; it leaves the model and optimizer state and the
    grad mode as they were. *)
Lemma val_frame w :
  same_grad w (snd (val cfg dl w))
  /\ same_state w (snd (val cfg dl w))
  /\ steps_with (validation_event (grad_enabled w)) w (snd (val cfg dl w))
  /\ exists d,
       trace (snd (val cfg dl w))
       = trace w ++ EModelEval
           :: ETqdm (List.length (val_loader dl)) Validation :: d
       /\ forallb quiet d = true.
Proof.
  rewrite val_unfold.
  pose proof (val_loop_in_eval (grad_enabled w) (enumerate (val_loader dl))
                0%float (val_entered dl w) eq_refl eq_refl)
    as (Hm & Hg & Hs & (d & Hd & Fd)).
  pose proof (val_loop_quiet (enumerate (val_loader dl)) 0%float
                (val_entered dl w)) as (d' & Hd' & Fd').
  assert (d' = d) as -> by (rewrite Hd in Hd'; eapply app_inv_head; eauto).
  destruct (for_each (enumerate (val_loader dl)) (val_step cfg) 0%float _)
    as [[v | e] w2]; simpl in *.
  - destruct (List.length (val_loader dl)) eqn:El; simpl;
      (split; [exact Hg |]); (split; [exact Hs |]); split.
    + exists ([EModelEval; ETqdm 0 Validation] ++ d ++ [EPbarClose]).
      rewrite Hd, <- !app_assoc. split; [reflexivity |].
      simpl. rewrite forallb_app, Fd. reflexivity.
    + exists (d ++ [EPbarClose]). rewrite Hd, <- !app_assoc.
      split; [reflexivity |]. rewrite forallb_app, Fd'. reflexivity.
    + exists ([EModelEval; ETqdm (S n) Validation]
              ++ d ++ [EPbarClose; EModelTrain]).
      rewrite Hd, <- !app_assoc. split; [reflexivity |].
      simpl. rewrite forallb_app, Fd. reflexivity.
    + exists (d ++ [EPbarClose; EModelTrain]). rewrite Hd, <- !app_assoc.
      split; [reflexivity |]. rewrite forallb_app, Fd'. reflexivity.
  - split; [exact Hg |]. split; [exact Hs |]. split.
    + exists ([EModelEval; ETqdm (List.length (val_loader dl)) Validation]
              ++ d).
      rewrite Hd, <- !app_assoc. split; [reflexivity |].
      simpl. rewrite Fd. reflexivity.
    + exists d. rewrite Hd, <- !app_assoc. split; [reflexivity | exact Fd'].
Qed.

(** When it returns, [val] has put the model back in training mode, by
    its last call. *)
Lemma val_ok_mode w v w' :
  val cfg dl w = (Ok v, w') ->
  model_training w' = true
  /\ exists d, trace w' = trace w ++ EModelEval :: d ++ [EModelTrain].
Proof.
  rewrite val_unfold.
  pose proof (val_loop_quiet (enumerate (val_loader dl)) 0%float
                (val_entered dl w)) as (d & Hd & _).
  destruct (for_each (enumerate (val_loader dl)) (val_step cfg) 0%float _)
    as [[x | e] w2]; [| discriminate].
  destruct (List.length (val_loader dl)) eqn:El; [discriminate |].
  intros H. inversion H; subst; clear H. simpl in *. split; [reflexivity |].
  exists ([ETqdm (List.length (val_loader dl)) Validation]
          ++ d ++ [EPbarClose]).
  rewrite Hd, <- !app_assoc. reflexivity.
Qed.

(** *** [train], unfolded *)

Lemma validate_and_checkpoint_unfold epoch m w :
  validate_and_checkpoint cfg dl epoch m w
  = match val cfg dl
            (with_mode false (log_to w [ELog LValidation; EModelEval])) with
    | (Raise x, w1) => (Raise x, w1)
    | (Ok v, w1) =>
        if PrimFloat.ltb v m then
          (Ok v,
           with_mode true
             (log_to w1 [EModelTrain; ELog (LValLoss v);
                         ESaveVal epoch (model_state w1) v]))
        else
          (Ok m,
           with_mode true
             (log_to w1 [EModelTrain; ELog (LValLoss v); ELog LSkipped]))
    end.
Proof.
  unfold validate_and_checkpoint, with_mode, log_to. unfold_prims.
  unfold bind at 1 2 3. unfold modify at 1 2 3. simpl.
  rewrite <- app_assoc. simpl. unfold bind at 1.
  destruct (val cfg dl _) as [[v | x] w1]; [| reflexivity].
  unfold bind, modify, get, ret. simpl.
  destruct (PrimFloat.ltb v m); simpl; rewrite <- !app_assoc; reflexivity.
Qed.

Lemma train_epoch_unfold epoch m w :
  train_epoch cfg dl epoch m w
  = match for_each (enumerate (train_loader dl)) (train_step cfg) 0%float
            (log_to w [ELog (LEpoch (epoch + 1) (n_epochs cfg));
                       ETqdm (List.length (train_loader dl)) Training]) with
    | (Raise x, w1) => (Raise x, w1)
    | (Ok running, w1) =>
        match List.length (train_loader dl) with
        | O => (Raise ZeroDivisionError, log_to w1 [EPbarClose])
        | S k =>
            let w2 :=
              log_to w1 [EPbarClose;
                         ELog (LEpochDone
                                 (PrimFloat.div running (float_of_nat (S k))))]
            in
            if val_freq cfg =? 0 then (Raise ZeroDivisionError, w2)
            else if epoch mod val_freq cfg =? 0
                 then validate_and_checkpoint cfg dl epoch m w2
                 else (Ok m, w2)
        end
    end.
Proof.
  unfold train_epoch, log_to. unfold_prims.
  unfold bind at 1 2. unfold modify at 1 2. simpl.
  rewrite <- app_assoc. simpl. unfold bind at 1.
  destruct (for_each (enumerate (train_loader dl)) (train_step cfg) 0%float _)
    as [[running | x] w1]; [| reflexivity].
  unfold bind at 1 2. unfold modify at 1. simpl.
  destruct (List.length (train_loader dl)); simpl; [reflexivity |].
  unfold bind at 1 2. unfold modify at 1. unfold py_mod. simpl.
  rewrite <- app_assoc. simpl.
  destruct (val_freq cfg =? 0); [reflexivity |]. simpl.
  destruct (epoch mod val_freq cfg =? 0); reflexivity.
Qed.

Lemma train_unfold r m w :
  train cfg dl r m w
  = match for_each (range r (n_epochs cfg)) (train_epoch cfg dl) m
            (with_mode true (log_to w [EModelTrain])) with
    | (Raise x, w1) => (Raise x, w1)
    | (Ok _, w1) => (Ok tt, log_to w1 [ESaveEnd (model_state w1)])
    end.
Proof.
  unfold train, with_mode, log_to. unfold_prims.
  unfold bind at 1 2. unfold modify at 1 2. simpl. unfold bind at 1.
  destruct (for_each (range r (n_epochs cfg)) (train_epoch cfg dl) m _)
    as [[m' | x] w1]; reflexivity.
Qed.

(** *** Views of a trace *)





(** *** One epoch, case by case

    However an epoch ends, its trace is the epoch's log line, calls that no
    view records, and then: nothing more (it raised, or no validation was
    due); or the progress bar of a validation pass, more unrecorded calls,
    and either nothing (the pass raised), the validation loss and a save,
    or the validation loss and the 'Skipped saving.' line. *)
Lemma train_epoch_cases epoch m w r w' :
  train_epoch cfg dl epoch m w = (r, w') ->
  exists d1,
    forallb quiet d1 = true
    /\ ((is_ok r = false
         /\ trace w'
            = trace w ++ ELog (LEpoch (epoch + 1) (n_epochs cfg)) :: d1)
        \/ (r = Ok m /\ val_freq cfg <> 0 /\ epoch mod val_freq cfg <> 0
            /\ trace w'
               = trace w ++ ELog (LEpoch (epoch + 1) (n_epochs cfg)) :: d1)
        \/ (val_freq cfg <> 0 /\ epoch mod val_freq cfg = 0
            /\ exists d2 tail,
                 forallb quiet d2 = true
                 /\ trace w'
                    = trace w ++ ELog (LEpoch (epoch + 1) (n_epochs cfg))
                        :: d1
                        ++ ETqdm (List.length (val_loader dl)) Validation
                        :: d2 ++ tail
                 /\ ((is_ok r = false /\ tail = [])
                     \/ (exists v,
                           PrimFloat.ltb v m = true /\ r = Ok v
                           /\ tail = [ELog (LValLoss v);
                                      ESaveVal epoch (model_state w') v])
                     \/ (exists v,
                           PrimFloat.ltb v m = false /\ r = Ok m
                           /\ tail = [ELog (LValLoss v); ELog LSkipped])))).
Proof.
  rewrite train_epoch_unfold.
  match goal with
  | |- context [for_each ?l ?b ?a ?w0] =>
      pose proof (train_loop_quiet l a w0) as (d & Hd & Fd);
      destruct (for_each l b a w0) as [[running | x] w1]
  end; simpl in Hd.
  2:{ intros H. inversion H; subst; clear H.
      exists (ETqdm (List.length (train_loader dl)) Training :: d).
      split; [exact Fd |]. left. split; [reflexivity |].
      rewrite Hd, <- app_assoc. reflexivity. }
  destruct (List.length (train_loader dl)) as [| k] eqn:El.
  { intros H. inversion H; subst; clear H.
    exists (ETqdm 0 Training :: d ++ [EPbarClose]).
    split; [simpl; rewrite forallb_app, Fd; reflexivity |].
    left. split; [reflexivity |]. simpl.
    rewrite Hd, <- !app_assoc. reflexivity. }
  cbv zeta.
  set (done := ELog (LEpochDone (PrimFloat.div running (float_of_nat (S k))))).
  destruct (Z.eqb_spec (val_freq cfg) 0) as [Hz | Hz].
  { intros H. inversion H; subst; clear H.
    exists (ETqdm (S k) Training :: d ++ [EPbarClose; done]).
    split; [simpl; rewrite forallb_app, Fd; reflexivity |].
    left. split; [reflexivity |]. simpl.
    rewrite Hd, <- !app_assoc. reflexivity. }
  destruct (Z.eqb_spec (epoch mod val_freq cfg) 0) as [Hm | Hm].
  2:{ intros H. inversion H; subst; clear H.
      exists (ETqdm (S k) Training :: d ++ [EPbarClose; done]).
      split; [simpl; rewrite forallb_app, Fd; reflexivity |].
      right. left. repeat split; auto. simpl.
      rewrite Hd, <- !app_assoc. reflexivity. }
  rewrite validate_and_checkpoint_unfold.
  match goal with
  | |- context [val cfg dl ?w0] =>
      pose proof (val_frame w0) as (_ & Hs & _ & (d2 & Hd2 & Fd2));
      destruct (val cfg dl w0) as [[v | x] w3]
  end; simpl in Hd2, Hs.
  2:{ intros H. inversion H; subst; clear H.
      exists (ETqdm (S k) Training
              :: d ++ [EPbarClose; done; ELog LValidation; EModelEval;
                       EModelEval]).
      split; [simpl; rewrite forallb_app, Fd; reflexivity |].
      right. right. repeat split; auto.
      exists d2, []. split; [exact Fd2 |]. split; [| left; auto].
      rewrite Hd2, Hd, app_nil_r. simpl. rewrite <- ?app_assoc. simpl.
      rewrite <- ?app_assoc. reflexivity. }
  destruct (PrimFloat.ltb v m) eqn:Hlt; intros H; inversion H; subst; clear H;
    exists (ETqdm (S k) Training
            :: d ++ [EPbarClose; done; ELog LValidation; EModelEval;
                     EModelEval]);
    (split; [simpl; rewrite forallb_app, Fd; reflexivity |]);
    right; right; repeat split; auto;
    exists (d2 ++ [EModelTrain]).
  - exists [ELog (LValLoss v); ESaveVal epoch (model_state w3) v].
    split; [rewrite forallb_app, Fd2; reflexivity |]. split.
    + simpl. rewrite Hd2, Hd. simpl. rewrite <- ?app_assoc. simpl.
      rewrite <- ?app_assoc. reflexivity.
    + right. left. exists v. auto.
  - exists [ELog (LValLoss v); ELog LSkipped].
    split; [rewrite forallb_app, Fd2; reflexivity |]. split.
    + simpl. rewrite Hd2, Hd. simpl. rewrite <- ?app_assoc. simpl.
      rewrite <- ?app_assoc. reflexivity.
    + right. right. exists v. auto.
Qed.

(** *** Checkpointing *)








(** *** When the loop returns *)







Lemma length_nonzero {A} (l : list A) : l <> [] -> List.length l <> O.
Proof. destruct l; [contradiction | discriminate]. Qed.



(** *** What a run of epochs that returns has done *)



(** *** What a run of epochs has done, however it ends *)




(** *** Modes *)

Lemma train_epoch_extends epoch m :
  keeps (steps_with (fun _ => true)) (train_epoch cfg dl epoch m).
Proof.
  intros w. destruct (train_epoch cfg dl epoch m w) as [r w'] eqn:He.
  apply train_epoch_cases in He as (d1 & _ & H). simpl.
  assert (A : forall l : list event, forallb (fun _ => true) l = true)
    by (induction l; auto).
  destruct H as [(_ & Ht) | [(_ & _ & _ & Ht) | (_ & _ & d2 & tail & _ & Ht & _)]];
    eexists; (split; [exact Ht | apply A]).
Qed.

Lemma train_epoch_same_grad epoch m :
  keeps same_grad (train_epoch cfg dl epoch m).
Proof.
  intros w. rewrite train_epoch_unfold.
  match goal with
  | |- context [for_each ?l ?b ?a ?w0] =>
      pose proof (train_loop_same_grad l a w0) as G;
      destruct (for_each l b a w0) as [[running | x] w1]
  end; unfold same_grad in *; simpl in *; [| exact G].
  destruct (List.length (train_loader dl)); [exact G |]. cbv zeta.
  destruct (val_freq cfg =? 0); [exact G |].
  destruct (epoch mod val_freq cfg =? 0); [| exact G].
  rewrite validate_and_checkpoint_unfold.
  match goal with
  | |- context [val cfg dl ?w0] =>
      pose proof (val_frame w0) as (G2 & _);
      destruct (val cfg dl w0) as [[v | x] w3]
  end; unfold same_grad in *; simpl in *;
    [destruct (PrimFloat.ltb v m) |]; simpl; congruence.
Qed.

(** An epoch that returns leaves the model in training mode if it found
    it there. *)
Lemma train_epoch_ok_mode epoch m w m' w' :
  model_training w = true ->
  train_epoch cfg dl epoch m w = (Ok m', w') -> model_training w' = true.
Proof.
  intros Hm. rewrite train_epoch_unfold.
  match goal with
  | |- context [for_each ?l ?b ?a ?w0] =>
      pose proof (train_loop_same_mode l a w0) as G;
      destruct (for_each l b a w0) as [[running | x] w1]
  end; unfold same_mode in *; simpl in *; [| discriminate].
  destruct (List.length (train_loader dl)); [discriminate |]. cbv zeta.
  destruct (val_freq cfg =? 0); [discriminate |].
  destruct (epoch mod val_freq cfg =? 0).
  - rewrite validate_and_checkpoint_unfold.
    destruct (val cfg dl _) as [[v | x] w3]; [| discriminate].
    destruct (PrimFloat.ltb v m); intros H; inversion H; reflexivity.
  - intros H. inversion H; subst. simpl. congruence.
Qed.

Lemma test_unfold img w :
  test img w
  = match to_numpy (grad_enabled w) (model_call (model_state w) false img) with
    | None =>
        (Raise RuntimeError,
         with_mode false
           (log_to w [EModelEval; EForward false (grad_enabled w)]))
    | Some y =>
        (Ok tt,
         with_mode true
           (log_to w [EModelEval; EForward false (grad_enabled w);
                      ELog (LPrediction y); EModelTrain]))
    end.
Proof.
  unfold test, with_mode, log_to. unfold_prims.
  unfold bind, modify, get, lift, ret, raise. simpl.
  destruct (to_numpy (grad_enabled w) (model_call (model_state w) false img));
    simpl; rewrite <- ?app_assoc; reflexivity.
Qed.

(** *** Properties of [val] *)

(** [val] returns the mean of the batch losses, added left to right from
    zero and divided by the number of batches.  It raises
    [ZeroDivisionError] on an empty loader (line 89), and also on a
    non-empty one when [cfg.print_freq] is zero (line 85). *)
Theorem val_returns_mean (w : world) :
  fst (val cfg dl w)
  = match val_loader dl with
    | [] => Raise ZeroDivisionError
    | _ :: _ =>
        if print_freq cfg =? 0 then Raise ZeroDivisionError
        else Ok (PrimFloat.div
                   (fold_left PrimFloat.add
                      (map (loss_item (model_state w) false) (val_loader dl))
                      0%float)
                   (float_of_nat (List.length (val_loader dl))))
    end.
Proof.
  destruct (Z.eqb_spec (print_freq cfg) 0) as [Hz | Hz].
  - rewrite val_unfold. unfold enumerate.
    destruct (val_loader dl) as [| x l]; [reflexivity |].
    simpl. unfold bind at 1. rewrite val_step_run, Hz. reflexivity.
  - rewrite (val_value w Hz). destruct (val_loader dl); reflexivity.
Qed.

(** C2 (amended).  Whatever happens, [val] only makes the calls of a
    validation pass: its forward passes run in evaluation mode and under
    the grad mode of the caller, which it never changes (it does not
    disable the recording of gradients); it never calls backward, the
    optimizer or a save, so no gradient is computed or applied, and the
    model and optimizer state are as before. *)
Theorem val_only_evaluates (w : world) :
  exists d,
    trace (snd (val cfg dl w)) = trace w ++ d
    /\ forallb (validation_event (grad_enabled w)) d = true
    /\ model_state (snd (val cfg dl w)) = model_state w
    /\ grad_enabled (snd (val cfg dl w)) = grad_enabled w.
Proof.
  destruct (val_frame w) as (G & S & (d & Hd & Fd) & _).
  exists d. auto.
Qed.

(** [val] puts the model back in training mode exactly when it returns:
    if it raises, the model stays in evaluation mode. *)
Theorem val_mode_after (w : world) :
  model_training (snd (val cfg dl w)) = is_ok (fst (val cfg dl w)).
Proof.
  rewrite val_unfold.
  match goal with
  | |- context [for_each ?l ?b ?a ?w0] =>
      pose proof (val_loop_same_mode l a w0) as G;
      destruct (for_each l b a w0) as [[v | x] w1]
  end; unfold same_mode in G; simpl in *; [| exact G].
  destruct (List.length (val_loader dl)); simpl; [exact G | reflexivity].
Qed.

(** *** Properties of [test] *)

(** [test] makes one forward pass in evaluation mode and puts the model
    back in training mode exactly when it returns: if the conversion of
    the prediction raises, the model stays in evaluation mode.  It never
    touches the model or optimizer state. *)
Theorem test_mode_after (img : image) (w : world) :
  model_training (snd (test img w)) = is_ok (fst (test img w))
  /\ model_state (snd (test img w)) = model_state w
  /\ exists d,
       trace (snd (test img w))
       = trace w ++ EModelEval :: EForward false (grad_enabled w) :: d.
Proof.
  rewrite test_unfold.
  destruct (to_numpy (grad_enabled w) (model_call (model_state w) false img));
    simpl; repeat split; eexists; reflexivity.
Qed.

(** *** Properties of [train] *)


(** With an empty training loader and an epoch left to run, [train]
    raises [ZeroDivisionError] at the epoch's mean loss (line 49), before
    any validation or save. *)
Theorem train_empty_loader (r : Z) (m : float) (w : world) :
  train_loader dl = [] -> r < n_epochs cfg ->
  train cfg dl r m w
  = (Raise ZeroDivisionError,
     with_mode true
       (log_to w [EModelTrain; ELog (LEpoch (r + 1) (n_epochs cfg));
                  ETqdm 0 Training; EPbarClose])).
Proof.
  intros Hl Hr. rewrite train_unfold, (range_cons _ _ Hr). simpl.
  unfold bind at 1. rewrite train_epoch_unfold, Hl. simpl.
  unfold with_mode, log_to. simpl. rewrite <- !app_assoc. reflexivity.
Qed.

Lemma train_ok_inv r m w w' :
  train cfg dl r m w = (Ok tt, w') ->
  exists m' w1,
    for_each (range r (n_epochs cfg)) (train_epoch cfg dl) m
      (with_mode true (log_to w [EModelTrain])) = (Ok m', w1)
    /\ w' = log_to w1 [ESaveEnd (model_state w1)].
Proof.
  rewrite train_unfold.
  destruct (for_each _ _ _ _) as [[m' | x] w1]; [| discriminate].
  intros H. inversion H. exists m', w1. auto.
Qed.







(** *** The training steps of a run *)

Lemma training_calls_app (a b : list event) :
  training_calls (a ++ b) = training_calls a ++ training_calls b.
Proof. apply filter_app. Qed.

Lemma validation_no_training_calls g (d : list event) :
  forallb (validation_event g) d = true -> training_calls d = [].
Proof.
  induction d as [| ev d IH]; [reflexivity |]. simpl.
  intros H. apply andb_prop in H as (He & Hd). rewrite (IH Hd).
  destruct ev as [| | [] ? | | | | | | | | | |]; simpl in *;
    try reflexivity; discriminate.
Qed.

Lemma train_step_gd it acc w :
  print_freq cfg <> 0 -> grad_enabled w = true -> model_training w = true ->
  exists a w',
    train_step cfg it acc w = (Ok a, w')
    /\ grad_enabled w' = true /\ model_training w' = true
    /\ model_state w' = optimizer_update (model_state w) (snd it)
    /\ training_calls (trace w') = training_calls (trace w) ++ gd_step.
Proof.
  intros Hp Hg Hm. unfold train_step. unfold_prims. unfold py_mod.
  destruct (Z.eqb_spec (print_freq cfg) 0) as [Hz | _]; [contradiction |].
  unfold bind at 1. unfold ret at 1.
  destruct ((Z.of_nat (fst it) + 1) mod print_freq cfg =? 0);
    unfold bind, get, modify, ret; simpl; rewrite Hg, Hm; simpl;
    eexists _, _; (split; [reflexivity |]); simpl;
    (repeat split; try reflexivity);
    rewrite <- ?app_assoc; rewrite !training_calls_app; simpl;
    rewrite ?app_nil_r; reflexivity.
Qed.

Lemma train_loop_gd l acc w :
  print_freq cfg <> 0 -> grad_enabled w = true -> model_training w = true ->
  exists a w',
    for_each l (train_step cfg) acc w = (Ok a, w')
    /\ grad_enabled w' = true /\ model_training w' = true
    /\ model_state w' = fold_left optimizer_update (map snd l) (model_state w)
    /\ training_calls (trace w')
       = training_calls (trace w) ++ List.concat (repeat gd_step (List.length l)).
Proof.
  intros Hp. revert acc w.
  induction l as [| it l IH]; intros acc w Hg Hm.
  - exists acc, w. simpl. rewrite app_nil_r. auto.
  - destruct (train_step_gd it acc w Hp Hg Hm)
      as (a & w1 & E1 & Hg1 & Hm1 & Hs1 & Ht1).
    destruct (IH a w1 Hg1 Hm1) as (b & w2 & E2 & Hg2 & Hm2 & Hs2 & Ht2).
    exists b, w2. simpl. unfold bind. rewrite E1, E2.
    repeat split; auto.
    + rewrite Hs2, Hs1. reflexivity.
    + rewrite Ht2, Ht1, <- app_assoc. reflexivity.
Qed.

Lemma enumerate_snd {A} (l : list A) : map snd (enumerate l) = l.
Proof.
  unfold enumerate. generalize O.
  induction l as [| x l IH]; intros i; simpl; [| rewrite IH]; reflexivity.
Qed.

Lemma enumerate_length {A} (l : list A) :
  List.length (enumerate l) = List.length l.
Proof.
  unfold enumerate. rewrite length_combine, length_seq. apply Nat.min_id.
Qed.

Lemma train_epoch_gd epoch m w :
  well_configured cfg dl ->
  grad_enabled w = true -> model_training w = true ->
  exists m' w',
    train_epoch cfg dl epoch m w = (Ok m', w')
    /\ grad_enabled w' = true /\ model_training w' = true
    /\ model_state w' = epoch_update (train_loader dl) (model_state w)
    /\ training_calls (trace w')
       = training_calls (trace w)
         ++ List.concat (repeat gd_step (List.length (train_loader dl))).
Proof.
  intros (Hp & Hv & Ht & Hl) Hg Hm. rewrite train_epoch_unfold.
  match goal with
  | |- context [for_each ?l ?b ?a ?w0] =>
      destruct (train_loop_gd l a w0 Hp Hg Hm)
        as (running & w1 & -> & Hg1 & Hm1 & Hs1 & Ht1)
  end.
  rewrite enumerate_snd in Hs1. rewrite enumerate_length in Ht1.
  simpl in Hs1, Ht1. rewrite training_calls_app in Ht1. simpl in Ht1.
  rewrite app_nil_r in Ht1.
  destruct (List.length (train_loader dl)) as [| k] eqn:El;
    [apply length_nonzero in Ht; contradiction |].
  cbv zeta. destruct (Z.eqb_spec (val_freq cfg) 0) as [| _]; [contradiction |].
  destruct (epoch mod val_freq cfg =? 0).
  - rewrite validate_and_checkpoint_unfold.
    match goal with
    | |- context [val cfg dl ?w0] =>
        destruct (val_total (fun _ => True) (fun _ _ _ _ => I) Hp Hl w0 I)
          as (v & w3 & Ev & _);
        pose proof (val_frame w0) as (G & S & (d & Hd & Fd) & _);
        rewrite Ev in *
    end.
    unfold same_grad, same_state in G, S. simpl in G, S, Hd.
    apply validation_no_training_calls in Fd.
    assert (Tc : training_calls (trace w3)
                 = training_calls (trace w)
                   ++ List.concat (repeat gd_step (Datatypes.S k))).
    { rewrite Hd, !training_calls_app, Fd, Ht1. simpl.
      rewrite !app_nil_r. reflexivity. }
    destruct (PrimFloat.ltb v m); eexists _, _; (split; [reflexivity |]);
      simpl; rewrite !training_calls_app, Tc; simpl; rewrite ?app_nil_r;
      (repeat split; try congruence); unfold epoch_update; congruence.
  - eexists _, _. split; [reflexivity |]. simpl.
    rewrite !training_calls_app, Ht1. simpl. rewrite ?app_nil_r.
    repeat split; auto.
Qed.

Lemma epochs_gd l m w :
  well_configured cfg dl ->
  grad_enabled w = true -> model_training w = true ->
  exists m' w',
    for_each l (train_epoch cfg dl) m w = (Ok m', w')
    /\ model_state w'
       = Nat.iter (List.length l) (epoch_update (train_loader dl))
           (model_state w)
    /\ training_calls (trace w')
       = training_calls (trace w)
         ++ List.concat (repeat gd_step
                      (List.length l * List.length (train_loader dl))).
Proof.
  intros Hc. revert m w.
  induction l as [| e l IH]; intros m w Hg Hm.
  - exists m, w. simpl. rewrite app_nil_r. auto.
  - destruct (train_epoch_gd e m w Hc Hg Hm)
      as (m1 & w1 & E1 & Hg1 & Hm1 & Hs1 & Ht1).
    destruct (IH m1 w1 Hg1 Hm1) as (m2 & w2 & E2 & Hs2 & Ht2).
    exists m2, w2. simpl for_each. unfold bind. rewrite E1, E2.
    split; [reflexivity |]. split.
    + rewrite Hs2, Hs1. simpl. rewrite <- Nat.iter_succ_r. reflexivity.
    + rewrite Ht2, Ht1, <- app_assoc. simpl List.length.
      rewrite <- List.concat_app, <- repeat_app. reflexivity.
Qed.

(** The loop is minibatch gradient descent.  In a well-configured run
    [train] returns, and the calls of its training steps are exactly: for
    each epoch left and each batch of the training loader, a forward pass
    in training mode with grad mode enabled, [zero_grad], [backward] and
    [optimizer.step], in that order.  The state it ends in (and hands to
    the final save) is the start state updated by one optimizer step per
    batch, in the loader's order, once per epoch: validation passes and
    saves never change it. *)
Theorem train_is_gradient_descent (r : Z) (m : float) (w : world) :
  well_configured cfg dl -> grad_on w ->
  exists w',
    train cfg dl r m w = (Ok tt, w')
    /\ training_calls (trace w')
       = training_calls (trace w)
         ++ List.concat (repeat gd_step
                      (Z.to_nat (Z.max 0 (n_epochs cfg - r))
                       * List.length (train_loader dl)))
    /\ model_state w'
       = Nat.iter (Z.to_nat (Z.max 0 (n_epochs cfg - r)))
           (epoch_update (train_loader dl)) (model_state w).
Proof.
  intros Hc Hg. rewrite train_unfold.
  destruct (epochs_gd (range r (n_epochs cfg)) m
              (with_mode true (log_to w [EModelTrain])) Hc Hg eq_refl)
    as (m' & w1 & -> & Hs & Ht).
  rewrite range_length in Hs, Ht.
  change (trace (with_mode true (log_to w [EModelTrain])))
    with (trace w ++ [EModelTrain]) in Ht.
  rewrite training_calls_app in Ht. simpl in Ht. rewrite app_nil_r in Ht.
  eexists. split; [reflexivity |]. simpl. split.
  - rewrite training_calls_app, Ht. simpl. rewrite !app_nil_r. reflexivity.
  - exact Hs.
Qed.

(** *** A period of zero *)


(** With [cfg.print_freq = 0], a non-empty training loader and an epoch
    left to run, [train] raises [ZeroDivisionError] at
    [(steps + 1) % cfg.print_freq] (line 36), before the first forward
    pass: no training step is made. *)
Theorem train_zero_print_freq (r : Z) (m : float) (w : world) :
  print_freq cfg = 0 -> train_loader dl <> [] -> r < n_epochs cfg ->
  train cfg dl r m w
  = (Raise ZeroDivisionError,
     with_mode true
       (log_to w [EModelTrain; ELog (LEpoch (r + 1) (n_epochs cfg));
                  ETqdm (List.length (train_loader dl)) Training])).
Proof.
  intros Hp Ht Hr. rewrite train_unfold, (range_cons _ _ Hr).
  simpl for_each. unfold bind at 1. rewrite train_epoch_unfold.
  unfold enumerate.
  destruct (train_loader dl) as [| x l]; [contradiction |].
  simpl. unfold bind at 1. unfold train_step at 1. unfold py_mod.
  rewrite Hp. simpl.
  unfold with_mode, log_to. simpl. rewrite <- !app_assoc. reflexivity.
Qed.

(** *** All three operations *)

(** C9.  Each of [train], [val] and [test] calls [model.train()], and
    leaves the model in training mode when it returns; [val] and [test]
    start by switching the model to evaluation mode, and [model.train()]
    is their last call. *)
Theorem run_ok_training_mode (op : operation) (w w' : world) :
  run cfg dl op w = (Ok tt, w') ->
  model_training w' = true
  /\ exists d,
       trace w' = trace w ++ d /\ In EModelTrain d
       /\ match op with
          | OpTrain _ _ => True
          | OpVal | OpTest _ => exists d', d = EModelEval :: d' ++ [EModelTrain]
          end.
Proof.
  destruct op as [r m | | img]; simpl; intros H.
  - apply train_ok_inv in H as (m' & w1 & Hl & ->). simpl. split.
    + eapply (for_each_ok_invariant (fun w => model_training w = true));
        [| | exact Hl]; [| reflexivity].
      intros e acc s b s' Hs Hb. eapply train_epoch_ok_mode; eauto.
    + pose proof (keeps_for_each _ (steps_with_refl (fun _ => true))
                    (steps_with_trans (fun _ => true))
                    (range r (n_epochs cfg)) (train_epoch cfg dl)
                    train_epoch_extends
                    m (with_mode true (log_to w [EModelTrain]))) as K.
      rewrite Hl in K. destruct K as (d & Hd & _). simpl in Hd.
      exists ([EModelTrain] ++ d ++ [ESaveEnd (model_state w1)]).
      rewrite Hd, <- !app_assoc.
      split; [reflexivity | split; [left; reflexivity | exact I]].
  - apply bind_ok_inv in H as (v & w1 & Hv & H). inversion H; subst.
    apply val_ok_mode in Hv as (Hm & d & Hd). split; [exact Hm |].
    exists (EModelEval :: d ++ [EModelTrain]). split; [exact Hd |]. split.
    + right. apply in_or_app. right. left. reflexivity.
    + exists d. reflexivity.
  - rewrite test_unfold in H.
    destruct (to_numpy _ _) as [y |]; [| discriminate].
    inversion H; subst. simpl. split; [reflexivity |].
    eexists. split; [reflexivity |]. split; [simpl; auto |].
    exists [EForward false (grad_enabled w); ELog (LPrediction y)].
    reflexivity.
Qed.

(** *** The script *)

Lemma restore_unfold args w :
  Cli.loaded args ->
  restore cfg args w
  = match checkpoint_file w with
    | Some ck => (Ok (ck_epoch ck, ck_val_loss ck), restored ck w)
    | None => (Raise FileNotFoundError, log_to w [ETorchLoad])
    end.
Proof.
  intros (Hl & _). unfold restore, torch_load, restored, log_to. rewrite Hl.
  simpl. unfold bind, emit, set_state, modify, get, ret, raise. simpl.
  destruct (checkpoint_file w); reflexivity.
Qed.

Lemma main_unfold argv args w :
  Cli.parse_args Cli.parser argv = Some args ->
  main cfg dl argv w
  = match checkpoint_file w with
    | None => (Raise FileNotFoundError, log_to w [ETorchLoad])
    | Some ck =>
        if Cli.is_str (Cli.getattr args "phase") "train" then
          train cfg dl (ck_epoch ck) (ck_val_loss ck) (restored ck w)
        else if Cli.is_str (Cli.getattr args "phase") "test" then
          match test_loader dl with
          | s :: _ => test (sample_image s) (restored ck w)
          | [] => (Raise StopIteration, restored ck w)
          end
        else (Raise ValueError, restored ck w)
    end.
Proof.
  intros Hp. unfold main. rewrite Hp. unfold bind at 1.
  rewrite (restore_unfold args w (CliFacts.parse_args_loaded argv args Hp)).
  destruct (checkpoint_file w) as [ck |]; [| reflexivity]. simpl.
  destruct (Cli.is_str (Cli.getattr args "phase") "train"); [reflexivity |].
  destruct (Cli.is_str (Cli.getattr args "phase") "test"); [| reflexivity].
  destruct (test_loader dl); reflexivity.
Qed.

(** Every accepted command line, with or without [--load], needs the
    checkpoint file: without one the script raises [FileNotFoundError] at
    [torch.load], before it trains or tests anything. *)
Theorem main_requires_checkpoint (argv : list string) (args : Cli.Namespace)
    (w : world) :
  Cli.parse_args Cli.parser argv = Some args ->
  checkpoint_file w = None ->
  main cfg dl argv w = (Raise FileNotFoundError, log_to w [ETorchLoad]).
Proof. intros Hp Hc. rewrite (main_unfold argv args w Hp), Hc. reflexivity. Qed.

(** In the train phase the script always resumes from the checkpoint:
    [train] starts at the checkpoint's epoch, with the checkpoint's
    validation loss as minimum and the checkpoint's state loaded;
    [cfg.resume_from_epoch] and [cfg.min_val_loss] are never used. *)
Theorem main_train_resumes (argv : list string) (args : Cli.Namespace)
    (w : world) (ck : checkpoint) :
  Cli.parse_args Cli.parser argv = Some args ->
  Cli.is_str (Cli.getattr args "phase") "train" = true ->
  checkpoint_file w = Some ck ->
  main cfg dl argv w
  = train cfg dl (ck_epoch ck) (ck_val_loss ck) (restored ck w).
Proof.
  intros Hp Ht Hc. rewrite (main_unfold argv args w Hp), Hc, Ht. reflexivity.
Qed.

(** A phase other than train and test is rejected with [ValueError], but
    only after the checkpoint has been loaded into the model and the
    optimizer. *)
Theorem main_unknown_phase (argv : list string) (args : Cli.Namespace)
    (w : world) (ck : checkpoint) :
  Cli.parse_args Cli.parser argv = Some args ->
  Cli.is_str (Cli.getattr args "phase") "train" = false ->
  Cli.is_str (Cli.getattr args "phase") "test" = false ->
  checkpoint_file w = Some ck ->
  main cfg dl argv w = (Raise ValueError, restored ck w).
Proof.
  intros Hp Ht Hs Hc. rewrite (main_unfold argv args w Hp), Hc, Ht, Hs.
  reflexivity.
Qed.

End WithEngine.

(** *** Runs on the small engine *)

Lemma table_well_configured : well_configured table_cfg2 table_dl.
Proof. unfold well_configured. simpl. repeat split; discriminate. Qed.

Example table_run_marks :
  marks (trace (snd (train table_cfg2 table_dl 1 1000%float (table_world None))))
  = [MEpoch 1; MEpoch 2; MVal; MEpoch 3; MEpoch 4; MVal].
Proof. vm_compute. reflexivity. Qed.

Example table_run_checkpoints :
  ckpt_view
    (trace (snd (train table_cfg table_dl 0 1000%float (table_world None))))
  = [VEpoch 0; VLoss 6; VSave 0 6; VEpoch 1; VLoss 8; VEpoch 2; VLoss 3.5;
     VSave 2 3.5; VEnd].
Proof. vm_compute. reflexivity. Qed.

Lemma train_empty_loader_witness :
  train table_cfg2 (@mkLoaders table_engine [] [[1%float]] []) 3 1000%float
    (table_world None)
  = (Raise ZeroDivisionError,
     with_mode true
       (log_to (table_world None)
          [EModelTrain; ELog (LEpoch (3 + 1) (n_epochs table_cfg2));
           ETqdm 0 Training; EPbarClose])).
Proof.
  apply (@train_empty_loader table_engine table_cfg2
           (@mkLoaders table_engine [] [[1%float]] []) 3 1000%float
           (table_world None)).
  - reflexivity.
  - simpl. lia.
Defined.

Lemma train_is_gradient_descent_witness :
  exists w',
    train table_cfg2 table_dl 1 1000%float (table_world None) = (Ok tt, w')
    /\ training_calls (trace w')
       = training_calls (trace (table_world None))
         ++ List.concat
              (repeat gd_step
                 (Z.to_nat (Z.max 0 (n_epochs table_cfg2 - 1))
                  * List.length (train_loader table_dl)))
    /\ model_state w'
       = Nat.iter (Z.to_nat (Z.max 0 (n_epochs table_cfg2 - 1)))
           (epoch_update (train_loader table_dl))
           (model_state (table_world None)).
Proof.
  apply (@train_is_gradient_descent table_engine table_cfg2 table_dl 1
           1000%float (table_world None)).
  - exact table_well_configured.
  - reflexivity.
Defined.


Lemma train_zero_print_freq_witness :
  train table_cfg_no_print table_dl 0 1000%float (table_world None)
  = (Raise ZeroDivisionError,
     with_mode true
       (log_to (table_world None)
          [EModelTrain; ELog (LEpoch (0 + 1) (n_epochs table_cfg_no_print));
           ETqdm (List.length (train_loader table_dl)) Training])).
Proof.
  apply (@train_zero_print_freq table_engine table_cfg_no_print table_dl 0
           1000%float (table_world None)).
  - reflexivity.
  - simpl. discriminate.
  - simpl. lia.
Defined.



Example table_run_epochs :
  epochs_run
    (trace (snd (train table_cfg2 table_dl 1 1000%float (table_world None))))
  = [1; 2; 3; 4].
Proof. vm_compute. reflexivity. Qed.


(** The two batches yield losses 9 and 9 before any training step. *)
Example table_val_mean :
  fst (val table_cfg2 table_dl (table_world None)) = Ok 9%float.
Proof. vm_compute. reflexivity. Qed.

Example table_val_empty :
  fst (val table_cfg2 (@mkLoaders table_engine [[1%float]] [] [])
         (table_world None))
  = Raise ZeroDivisionError.
Proof. vm_compute. reflexivity. Qed.

(** C2 (as stated, refuted).  In a training run started as [main.py]
    starts it, the forward passes made in evaluation mode, which are those
    of the validation passes, are made with grad mode enabled: the
    validation passes are not no-gradient passes. *)
Lemma validation_records_gradients :
  List.length
    (filter (fun ev => match ev with EForward false _ => true | _ => false end)
       (trace (snd (train table_cfg table_dl 0 1000%float
                      (table_world None)))))
  = 6%nat
  /\ forallb no_grad_event
       (filter
          (fun ev => match ev with EForward false _ => true | _ => false end)
          (trace (snd (train table_cfg table_dl 0 1000%float
                         (table_world None)))))
     = false
  /\ no_grad_pass (trace (snd (val table_cfg table_dl (table_world None))))
     = false.
Proof. vm_compute. repeat split; reflexivity. Qed.

Lemma run_ok_training_mode_witness :
  model_training (snd (run table_cfg2 table_dl (@OpVal table_engine)
                         (with_mode false (table_world None)))) = true
  /\ exists d,
       trace (snd (run table_cfg2 table_dl (@OpVal table_engine)
                     (with_mode false (table_world None))))
       = trace (with_mode false (table_world None)) ++ d
       /\ In EModelTrain d
       /\ exists d', d = EModelEval :: d' ++ [EModelTrain].
Proof.
  apply (@run_ok_training_mode table_engine table_cfg2 table_dl
           (@OpVal table_engine) (with_mode false (table_world None))).
  vm_compute. reflexivity.
Defined.

Lemma main_requires_checkpoint_witness :
  main table_cfg table_dl ["--phase"%string; "train"%string] (table_world None)
  = (Raise FileNotFoundError, log_to (table_world None) [ETorchLoad]).
Proof.
  apply (@main_requires_checkpoint table_engine table_cfg table_dl
           ["--phase"%string; "train"%string]
           [("phase"%string, Cli.VStr "train"%string); ("load"%string, Cli.VBool true)]
           (table_world None)); reflexivity.
Defined.

Lemma main_train_resumes_witness :
  main table_cfg table_dl [] (table_world (Some table_checkpoint))
  = train table_cfg table_dl (ck_epoch table_checkpoint)
      (ck_val_loss table_checkpoint)
      (restored table_checkpoint (table_world (Some table_checkpoint))).
Proof.
  apply (@main_train_resumes table_engine table_cfg table_dl []
           [("phase"%string, Cli.VStr "train"%string); ("load"%string, Cli.VBool true)]
           (table_world (Some table_checkpoint)) table_checkpoint);
    reflexivity.
Defined.

Lemma main_unknown_phase_witness :
  main table_cfg table_dl ["--phase=val"%string] (table_world (Some table_checkpoint))
  = (Raise ValueError,
     restored table_checkpoint (table_world (Some table_checkpoint))).
Proof.
  apply (@main_unknown_phase table_engine table_cfg table_dl ["--phase=val"%string]
           [("phase"%string, Cli.VStr "val"%string); ("load"%string, Cli.VBool true)]
           (table_world (Some table_checkpoint)) table_checkpoint);
    reflexivity.
Defined.

(** C4 (the code, run without [--load]).  The script restores the
    checkpoint all the same: [train] is started from the checkpoint's
    epoch and validation loss with the checkpoint's state loaded, not from
    the configuration's defaults; and when there is no checkpoint file the
    script raises at [torch.load]. *)
Theorem main_restores_without_load_flag :
  Cli.parse_args Cli.parser ["--phase"%string; "train"%string]
  = Some [("phase"%string, Cli.VStr "train"); ("load"%string, Cli.VBool true)]
  /\ main table_cfg table_dl ["--phase"%string; "train"%string]
       (table_world (Some table_checkpoint))
     = train table_cfg table_dl 2 0.5%float
         (restored table_checkpoint (table_world (Some table_checkpoint)))
  /\ main table_cfg table_dl ["--phase"%string; "train"%string]
       (table_world None)
     = (Raise FileNotFoundError, log_to (table_world None) [ETorchLoad]).
Proof.
  assert (Hp : Cli.parse_args Cli.parser ["--phase"%string; "train"%string]
               = Some [("phase"%string, Cli.VStr "train");
                       ("load"%string, Cli.VBool true)]) by reflexivity.
  split; [exact Hp |]. split.
  - rewrite (main_unfold table_cfg table_dl _ _ _ Hp). reflexivity.
  - rewrite (main_unfold table_cfg table_dl _ _ _ Hp). reflexivity.
Qed.

(** The resumed run: from epoch 2 of 3, one epoch is trained. *)
Example table_main_resumed :
  epochs_run
    (trace (snd (main table_cfg table_dl []
                   (table_world (Some table_checkpoint)))))
  = [2].
Proof. vm_compute. reflexivity. Qed.

End MainFacts.
